(** * Face attendance system: the attendance bookkeeping of
    [student_attendance_system.py], embedded and verified.

    The embedding covers the three pieces of [StudentAttendanceSystem] that
    carry decision logic: the identity codec ([parse_name_id]), the attendance
    ledger ([load_today_attendance], [record_attendance]) and the recognition
    smoother ([update_recognition_buffer]).  Camera capture, face detection
    and drawing are library calls and are left out. *)

From Stdlib Require Import Floats.PrimFloat Floats.SpecFloat Floats.FloatOps.
From Stdlib Require Import Numbers.Cyclic.Int63.Uint63.
From Stdlib Require Import Strings.Ascii.
From stdpp Require Import gmap strings list pretty sorting.

(** ** Python run-time values shared by all methods *)

(** The built-in exceptions the modelled statements can raise. *)
Inductive exn : Type :=
  | OSError            (* open / read / write on the attendance file *)
  | ValueError         (* max() of an empty sequence *)
  | IndexError         (* parts[1], list.pop(0) out of range *)
  | KeyError           (* dict[key] on an absent key *)
  | ZeroDivisionError. (* division by a zero count *)

(** The outcome of running a statement: a value, or a raised exception. *)
Inductive result (A : Type) : Type :=
  | Return (a : A)
  | Raise (e : exn).
Arguments Return {A} a.
Arguments Raise {A} e.

(** ** Identity codec *)

Module Codec.

(** The field separator of a composite key. *)
Definition sep : ascii := "_"%char.

(** The sentinel pair of the bare [except:] branch of [parse_name_id]:
    the two characters of the source literal, as their UTF-8 bytes. *)
Definition unknown_name : string := "不明".
Definition default_id : string := "000".

(** ["_" in s].  A Python [str] is a sequence of code points; it is held
    here as its UTF-8 bytes.  The byte of ["_"] never occurs inside a
    multi-byte sequence, so searching and splitting agree on both views. *)
Fixpoint contains_sep (s : string) : bool :=
  match s with
  | EmptyString => false
  | String c r => if Ascii.eqb c sep then true else contains_sep r
  end.

(** The split point of [s.rsplit("_", 1)]: the text before and after the
    last separator, or [None] when [s] holds no separator. *)
Fixpoint split_last (s : string) : option (string * string) :=
  match s with
  | EmptyString => None
  | String c r =>
      match split_last r with
      | Some (a, b) => Some (String c a, b)
      | None => if Ascii.eqb c sep then Some (EmptyString, r) else None
      end
  end.

(** [s.rsplit("_", 1)]: a list of two parts, or of [s] alone. *)
Definition rsplit1 (s : string) : list string :=
  match split_last s with
  | Some (a, b) => [a; b]
  | None => [s]
  end.

(** [parts[i]], raising [IndexError] out of range. *)
Definition getitem (parts : list string) (i : nat) : result string :=
  match parts !! i with
  | Some x => Return x
  | None => Raise IndexError
  end.

(** [parse_name_id]: the body of the [try], then the bare [except:]. *)
Definition parse_name_id_try (name_id : string) : result (string * string) :=
  if contains_sep name_id then
    let parts := rsplit1 name_id in
    match getitem parts 0, getitem parts 1 with
    | Return p0, Return p1 => Return (p0, p1)
    | Raise e, _ | _, Raise e => Raise e
    end
  else Return (name_id, default_id).

Definition parse_name_id (name_id : string) : string * string :=
  match parse_name_id_try name_id with
  | Return p => p
  | Raise _ => (unknown_name, default_id)
  end.

(** The composite key as the program builds it: [f"{name}_{student_id}"]
    in [load_today_attendance]. *)
Definition join_name_id (name student_id : string) : string :=
  name +:+ String sep student_id.

End Codec.

(** ** Statements: state passing with exceptions

    A statement runs on a state [S] and returns a value or raises; the state
    it leaves behind is kept in both cases, as Python does not roll back
    the mutations of a failed [try] body. *)

Definition M (S A : Type) : Type := S → result A * S.

Global Instance M_ret {S} : MRet (M S) := λ A a s, (Return a, s).

Global Instance M_bind {S} : MBind (M S) := λ A B f m s,
  match m s with
  | (Return a, s') => f a s'
  | (Raise e, s') => (Raise e, s')
  end.

Definition raise {S A} (e : exn) : M S A := λ s, (Raise e, s).

(** [try: body except Exception as e: handler e]. *)
Definition try_except {S A} (body : M S A) (handler : exn → M S A) : M S A :=
  λ s, match body s with
       | (Return a, s') => (Return a, s')
       | (Raise e, s') => handler e s'
       end.

Definition gets {S A} (f : S → A) : M S A := λ s, (Return (f s), s).
Definition modify {S} (f : S → S) : M S () := λ s, (Return (), f s).

(** [for x in l: body x]. *)
Fixpoint for_each {S A} (l : list A) (body : A → M S ()) : M S () :=
  match l with
  | [] => mret ()
  | x :: r => body x ;; for_each r body
  end.

(** ** The Python run time the class relies on

    Four library behaviours are taken as an interface: the confidence values
    of the recogniser with the [sum] built-in and true division by an [int]
    on them, the [:.1f] format, and the order in which a [set] of strings is
    iterated (hash order, fixed within a process). *)

Class Runtime : Type := {
  conf : Type;
  py_sum : list conf → conf;
  py_truediv : conf → nat → conf;
  format_1f : conf → string;
  set_iter : list string → list string;
}.

(** *** The instance on binary64 floats *)

(** [sum] starts from the integer [0] and adds from the left. *)
Definition float_sum (cs : list float) : float :=
  fold_left PrimFloat.add cs 0%float.

Definition float_truediv (s : float) (n : nat) : float :=
  (s / PrimFloat.of_uint63 (Uint63.of_Z (Z.of_nat n)))%float.

(** Round [num / den] to the nearest integer, ties to even. *)
Definition round_half_even (num den : Z) : Z :=
  let q := (num / den)%Z in
  let r := (num mod den)%Z in
  if (den <? 2 * r)%Z then (q + 1)%Z
  else if (den =? 2 * r)%Z then (if Z.even q then q else (q + 1)%Z)
  else q.

(** [f"{x:.1f}"]: the exact value of [x] rounded to one decimal. *)
Definition float_format_1f (x : float) : string :=
  match Prim2SF x with
  | S754_nan => "nan"
  | S754_infinity s => if s then "-inf" else "inf"
  | S754_zero s => if s then "-0.0" else "0.0"
  | S754_finite s m e =>
      let tenths :=
        if (0 <=? e)%Z then (10 * Z.pos m * 2 ^ e)%Z
        else round_half_even (10 * Z.pos m) (2 ^ (- e)) in
      (if s then "-" else "") +:+ pretty (tenths / 10)%Z +:+ "."
        +:+ pretty (tenths mod 10)%Z
  end.

(** One possible iteration order of [set(names)]: each name once, at the
    place of its last occurrence. *)
Definition float_runtime : Runtime := {|
  conf := float;
  py_sum := float_sum;
  py_truediv := float_truediv;
  format_1f := float_format_1f;
  set_iter := remove_dups;
|}.

(** The same run time with the set iterated in the opposite order. *)
Definition float_runtime_rev : Runtime := {|
  conf := float;
  py_sum := float_sum;
  py_truediv := float_truediv;
  format_1f := float_format_1f;
  set_iter := λ names, reverse (remove_dups names);
|}.

(** ** The attendance system and its environment *)

(** A row of the ledger as [csv.reader] yields it and [csv.writer] takes it. *)
Definition row : Type := list string.

(** The lines the methods print. *)
Inductive message : Type :=
  | TodayCount (n : nat)                          (* "本日の出席者: n人" *)
  | LoadWarning (e : exn)                         (* "警告: ... 読み込みに失敗" *)
  | Recorded (name student_id confidence : string) (* "出席記録: ..." *)
  | RecordError (e : exn).                        (* "出席記録エラー: ..." *)

(** What the methods see outside the object: the files by path (each as the
    rows a reader yields, header first), the faults of the storage, the clock
    as [strftime] renders it, and the console. *)
Record World : Type := {
  fs : gmap string (list row);
  read_fault : option nat;   (* [Some n]: reading raises once [n] rows were
                                yielded; [Some 0] is a failing [open] *)
  append_fault : bool;       (* opening for append, or the write, raises *)
  now_date : string;         (* [datetime.now().strftime("%Y-%m-%d")] *)
  now_time : string;         (* [datetime.now().strftime("%H:%M:%S")] *)
  stdout : list message;
}.

Section Attendance.
Context {rt : Runtime}.

(** The fields of [StudentAttendanceSystem] the three components use. *)
Record System : Type := {
  attendance_file : string;
  confidence_threshold : Z;   (* an [int]: 100 by default and in [main] *)
  today_attendance : gset string;
  recognition_buffer : gmap string (list (string * conf));
  buffer_threshold : nat;
}.

Record Machine : Type := { self : System; world : World }.

(** [__init__] up to the call of [setup_system]. *)
Definition init (confidence_threshold : Z) (attendance_file : string) : System := {|
  attendance_file := attendance_file;
  confidence_threshold := confidence_threshold;
  today_attendance := ∅;
  recognition_buffer := ∅;
  buffer_threshold := 3;
|}.

(** *** Assignments to attributes and to the world *)

Definition set_today_attendance (t : gset string) (m : Machine) : Machine :=
  {| self := {| attendance_file := attendance_file (self m);
                confidence_threshold := confidence_threshold (self m);
                today_attendance := t;
                recognition_buffer := recognition_buffer (self m);
                buffer_threshold := buffer_threshold (self m) |};
     world := world m |}.

Definition set_recognition_buffer (b : gmap string (list (string * conf)))
    (m : Machine) : Machine :=
  {| self := {| attendance_file := attendance_file (self m);
                confidence_threshold := confidence_threshold (self m);
                today_attendance := today_attendance (self m);
                recognition_buffer := b;
                buffer_threshold := buffer_threshold (self m) |};
     world := world m |}.

Definition set_fs (f : gmap string (list row)) (m : Machine) : Machine :=
  {| self := self m;
     world := {| fs := f;
                 read_fault := read_fault (world m);
                 append_fault := append_fault (world m);
                 now_date := now_date (world m);
                 now_time := now_time (world m);
                 stdout := stdout (world m) |} |}.

Definition set_stdout (o : list message) (m : Machine) : Machine :=
  {| self := self m;
     world := {| fs := fs (world m);
                 read_fault := read_fault (world m);
                 append_fault := append_fault (world m);
                 now_date := now_date (world m);
                 now_time := now_time (world m);
                 stdout := o |} |}.

Definition print (msg : message) : M Machine () :=
  modify (λ m, set_stdout (stdout (world m) ++ [msg]) m).

(** [self.today_attendance.add(name_id)]. *)
Definition today_add (name_id : string) : M Machine () :=
  modify (λ m, set_today_attendance ({[name_id]} ∪ today_attendance (self m)) m).

(** *** Storage *)

(** [os.path.exists(self.attendance_file)]. *)
Definition attendance_file_exists (m : Machine) : bool :=
  bool_decide (is_Some (fs (world m) !! attendance_file (self m))).

(** Opening the file for reading and iterating [csv.reader] over it: the
    rows that are yielded, and the exception that ends the iteration when
    the storage faults. *)
Definition read_rows (m : Machine) : list row * option exn :=
  match fs (world m) !! attendance_file (self m) with
  | None => ([], Some OSError)
  | Some rows =>
      match read_fault (world m) with
      | None => (rows, None)
      | Some n => (take n rows, Some OSError)
      end
  end.

(** [with open(file, "a") as f: csv.writer(f).writerow(r)]; mode ["a"]
    creates the file when it is absent.  A file is kept as the rows a reader
    yields, and the row appended is taken to be read back as it was written:
    that is so when the text before it ends its last line and the cells hold
    no carriage return.  Statements about the rows of the file after an
    append hold under that proviso. *)
Definition append_row (r : row) : M Machine () := λ m,
  if append_fault (world m) then (Raise OSError, m)
  else
    let old := default [] (fs (world m) !! attendance_file (self m)) in
    (Return (), set_fs (<[attendance_file (self m) := old ++ [r]]> (fs (world m))) m).

(** *** load_today_attendance *)

(** The test and the key of the loop body: [len(row) >= 4 and
    row[0] == today], then [f"{row[2]}_{row[3]}"]. *)
Definition today_key (today : string) (r : row) : option string :=
  match r with
  | date :: _ :: name :: student_id :: _ =>
      if decide (date = today) then Some (Codec.join_name_id name student_id)
      else None
  | _ => None
  end.

(** The body of the loop over the rows. *)
Definition load_row (today : string) (r : row) : M Machine () :=
  match today_key today r with
  | Some name_id => today_add name_id
  | None => mret ()
  end.

Definition load_today_attendance : M Machine () :=
  today ← gets (λ m, now_date (world m));
  modify (set_today_attendance ∅) ;;
  file_exists ← gets attendance_file_exists;
  if file_exists : bool then
    try_except
      ('(rows, fault) ← gets read_rows;
       (* next(reader, None) takes the header off *)
       for_each (drop 1 rows) (load_row today) ;;
       match fault with
       | Some e => raise e
       | None => mret ()
       end ;;
       n ← gets (λ m, size (today_attendance (self m)));
       print (TodayCount n))
      (λ e, print (LoadWarning e))
  else mret ().

(** *** record_attendance *)

Definition record_attendance (name_id : string) (confidence : conf) : M Machine bool :=
  present ← gets (λ m, bool_decide (name_id ∈ today_attendance (self m)));
  if present : bool then mret false
  else
    try_except
      (let '(name, student_id) := Codec.parse_name_id name_id in
       date_str ← gets (λ m, now_date (world m));
       time_str ← gets (λ m, now_time (world m));
       append_row [date_str; time_str; name; student_id; format_1f confidence] ;;
       today_add name_id ;;
       print (Recorded name student_id (format_1f confidence)) ;;
       mret true)
      (λ e, print (RecordError e) ;; mret false).

(** *** update_recognition_buffer *)

(** [names.count(x)]. *)
Definition py_count (x : string) (names : list string) : nat :=
  length (filter (λ y, y = x) names).

(** The loop of [max(iterable, key=...)]: the running maximum is replaced
    only by an item whose key is strictly greater. *)
Fixpoint max_loop (key : string → nat) (best : string) (l : list string) : string :=
  match l with
  | [] => best
  | x :: r => if key best <? key x then max_loop key x r else max_loop key best r
  end.

Definition py_max (key : string → nat) (l : list string) : result string :=
  match l with
  | [] => Raise ValueError
  | x :: r => Return (max_loop key x r)
  end.

(** [max(set(names), key=names.count)]. *)
Definition most_common (names : list string) : result string :=
  py_max (λ x, py_count x names) (set_iter names).

(** [sum(item[1] for item in h if item[0] == name) / names.count(name)]. *)
Definition avg_confidence (h : list (string * conf)) (name : string) : result conf :=
  let total := py_sum (filter (λ item, item.1 = name) h).*2 in
  match py_count name h.*1 with
  | 0 => Raise ZeroDivisionError
  | S n => Return (py_truediv total (S n))
  end.

Definition lift {A} (r : result A) : M Machine A := λ m, (r, m).

(** [self.recognition_buffer[face_id]] read and rebound; the list held
    under a key is reachable from nowhere else, so mutating it in place
    is replacing the entry. *)
Definition buffer_get (face_id : string) : M Machine (list (string * conf)) := λ m,
  match recognition_buffer (self m) !! face_id with
  | Some h => (Return h, m)
  | None => (Raise KeyError, m)
  end.

Definition buffer_set (face_id : string) (h : list (string * conf)) : M Machine () :=
  modify (λ m, set_recognition_buffer (<[face_id := h]> (recognition_buffer (self m))) m).

(** [self.recognition_buffer[face_id].pop(0)]. *)
Definition buffer_pop0 (face_id : string) : M Machine () :=
  h ← buffer_get face_id;
  match h with
  | [] => raise IndexError
  | _ :: r => buffer_set face_id r
  end.

(** The method returns the pair [(None, None)] or [(name, average)];
    the first is [None] here and the second [Some (name, average)]. *)
Definition update_recognition_buffer (face_id name_id : string) (confidence : conf)
    : M Machine (option (string * conf)) :=
  known ← gets (λ m, bool_decide (is_Some (recognition_buffer (self m) !! face_id)));
  (if known : bool then mret () else buffer_set face_id []) ;;
  h ← buffer_get face_id;
  buffer_set face_id (h ++ [(name_id, confidence)]) ;;
  k ← gets (λ m, buffer_threshold (self m));
  h ← buffer_get face_id;
  (if bool_decide (k < length h) then buffer_pop0 face_id else mret ()) ;;
  h ← buffer_get face_id;
  if bool_decide (k ≤ length h) then
    let names := h.*1 in
    most_common_name ← lift (most_common names);
    if bool_decide (Z.of_nat k - 1 ≤ Z.of_nat (py_count most_common_name names))%Z then
      avg ← lift (avg_confidence h most_common_name);
      mret (Some (most_common_name, avg))
    else mret None
  else mret None.

(** The two halves of the method as functions of the slot's history: the
    history after the append and the trim, and what is returned for it. *)
Definition trim (k : nat) (h : list (string * conf)) : list (string * conf) :=
  if bool_decide (k < length h) then drop 1 h else h.

Definition verdict (k : nat) (h : list (string * conf))
    : result (option (string * conf)) :=
  if bool_decide (k ≤ length h) then
    match most_common h.*1 with
    | Return w =>
        if bool_decide (Z.of_nat k - 1 ≤ Z.of_nat (py_count w h.*1))%Z then
          match avg_confidence h w with
          | Return avg => Return (Some (w, avg))
          | Raise e => Raise e
          end
        else Return None
    | Raise e => Raise e
    end
  else Return None.

(** *** Runs of calls *)

(** One observation as the main loop passes it: slot, identity, confidence. *)
Definition observation : Type := string * string * conf.

(** The calls of [update_recognition_buffer] for a list of observations, in
    order: what each call returned, and the machine after the last. *)
Fixpoint observe_all (calls : list observation) (m : Machine)
    : list (result (option (string * conf))) * Machine :=
  match calls with
  | [] => ([], m)
  | (face_id, name_id, confidence) :: rest =>
      let '(r, m1) := update_recognition_buffer face_id name_id confidence m in
      let '(rs, m2) := observe_all rest m1 in
      (r :: rs, m2)
  end.

(** The observations of a run that went to one slot. *)
Definition slot_observations (face_id : string) (calls : list observation)
    : list (string * conf) :=
  omap (λ o : observation,
          if decide (o.1.1 = face_id) then Some (o.1.2, o.2) else None) calls.

(** The calls that feed a list of (identity, confidence) pairs to one slot. *)
Definition slot_calls (face_id : string) (obs : list (string * conf))
    : list observation :=
  (λ o, (face_id, o.1, o.2)) <$> obs.

(** The last [k] items of a list. *)
Definition last_n {A} (k : nat) (l : list A) : list A := drop (length l - k) l.

(** The buffer holds, for every slot, the last [buffer_threshold] items of
    what the slot was fed in [past], and no entry for a slot never fed. *)
Definition buffer_tracks (past : list observation) (m : Machine) : Prop :=
  ∀ face,
    recognition_buffer (self m) !! face =
      match slot_observations face past with
      | [] => None
      | obs => Some (last_n (buffer_threshold (self m)) obs)
      end.

(** ** Definitions that follow the specification's words *)

(** The arithmetic mean of a list of confidences: their sum over their
    number. *)
Definition arithmetic_mean (cs : list conf) : conf :=
  py_truediv (py_sum cs) (length cs).

(** The confidences an identity was observed with in a window. *)
Definition confidences_of (name : string) (window : list (string * conf)) : list conf :=
  (filter (λ item, item.1 = name) window).*2.

(** The history of a slot; a slot never observed has none, read as empty. *)
Definition history (face_id : string) (m : Machine) : list (string * conf) :=
  default [] (recognition_buffer (self m) !! face_id).

(** The keys a list of rows contributes on a given day, in file order. *)
Definition today_keys (today : string) (rows : list row) : list string :=
  omap (today_key today) rows.

(** A row whose first cell is the given date. *)
Definition dated (today : string) (r : row) : Prop := head r = Some today.

Global Instance dated_dec today r : Decision (dated today r).
Proof. unfold dated. apply _. Defined.

(** The machine with the attendance file replaced by the given rows. *)
Definition with_rows (rows : list row) (m : Machine) : Machine :=
  set_fs (<[attendance_file (self m) := rows]> (fs (world m))) m.
End Attendance.

(** ** Sample machines on the float run time *)

(** The header [setup_attendance_file] writes. *)
Definition ledger_header : row := ["日付"; "時刻"; "名前"; "学籍番号"; "信頼度"].

Definition sample_world (rows : list row) (rf : option nat) (af : bool) : World := {|
  fs := {["attendance.csv" := rows]};
  read_fault := rf;
  append_fault := af;
  now_date := "2025-04-07";
  now_time := "08:55:12";
  stdout := [];
|}.

(** A freshly constructed system in a world whose ledger holds the given
    rows, with the given faults. *)
Definition sample_machine (rt : Runtime) (rows : list row) (rf : option nat)
    (af : bool) : @Machine rt :=
  {| self := init 100 "attendance.csv"; world := sample_world rows rf af |}.

(** The same, after Alice was recorded in memory. *)
Definition alice_present (rt : Runtime) (rows : list row) (rf : option nat)
    (af : bool) : @Machine rt :=
  set_today_attendance {["Alice_001"]} (sample_machine rt rows rf af).

Definition sample_rows : list row :=
  [ ledger_header;
    ["2025-04-04"; "09:01:10"; "Carol"; "003"; "38.2"];
    ["2025-04-07"; "08:50:00"; "Alice"; "001"; "41.0"];
    ["2025-04-07"; "08:51:30"; "Bob"; "002"; "47.5"];
    ["2025-04-07"];
    ["2025-04-06"; "10:00:00"; "Alice"; "001"; "40.3"] ].

(** Three observations of one slot, two of them of Alice. *)
Definition alice_alice_bob : list (string * @conf float_runtime) :=
  [("Alice_001", 40.0%float); ("Alice_001", 42.0%float); ("Bob_002", 50.0%float)].

(** Three observations of one slot, all of different people. *)
Definition three_strangers : list (string * @conf float_runtime) :=
  [("Alice_001", 40.0%float); ("Carol_003", 42.0%float); ("Bob_002", 50.0%float)].

(** A machine whose ledger is readable and writable. *)
Definition healthy : @Machine float_runtime :=
  sample_machine float_runtime sample_rows None false.

(** The machine after slot ["face_0"] saw Alice, then Carol. *)
Definition after_two_strangers : @Machine float_runtime :=
  (observe_all (slot_calls "face_0" (take 2 three_strangers)) healthy).2.

(** Five observations over two slots, four of them on ["face_0"]. *)
Definition two_slot_run : list (@observation float_runtime) :=
  [ ("face_0", "Alice_001", 40.0%float);
    ("face_1", "Bob_002", 55.0%float);
    ("face_0", "Alice_001", 42.0%float);
    ("face_0", "Bob_002", 50.0%float);
    ("face_0", "Alice_001", 39.5%float) ].

(** ** The rest of the class: set-up, summary and the main loop *)

(** [confidence > self.confidence_threshold]: a confidence of the recogniser
    against the integer threshold. *)
Class Comparison (rt : Runtime) : Type := conf_gt : conf → Z → bool.

(** A line of [show_attendance_summary]. *)
Inductive summary_line : Type :=
  | SummaryRule                                   (* "=" * 50 *)
  | SummaryTitle                                  (* "本日の出席者一覧" *)
  | SummaryNobody                                 (* "まだ出席者がいません" *)
  | SummaryEntry (i : nat) (name student_id : string)
  | SummaryTotal (n : nat).                       (* "合計出席者数: n人" *)

Section Session.
Context {rt : Runtime} {cmp : Comparison rt}.

(** *** setup_attendance_file *)

(** [open(file, "w")] followed by the header row.  Whether the creation
    raises is the argument [create_fault]; the method has no [try]. *)
Definition setup_attendance_file (create_fault : bool) : M Machine () :=
  file_exists ← gets attendance_file_exists;
  if file_exists : bool then mret ()
  else if create_fault then raise OSError
  else modify (λ m,
         set_fs (<[attendance_file (self m) := [ledger_header]]> (fs (world m))) m).

(** *** show_attendance_summary *)

(** [sorted(self.today_attendance)]: strings compare by code point, which is
    the order of their UTF-8 bytes. *)
Definition sorted_attendance (m : Machine) : list string :=
  merge_sort String.le (elements (today_attendance (self m))).

(** [enumerate(keys, start)], each key decoded for its line. *)
Fixpoint summary_entries (start : nat) (keys : list string) : list summary_line :=
  match keys with
  | [] => []
  | name_id :: rest =>
      let '(name, student_id) := Codec.parse_name_id name_id in
      SummaryEntry start name student_id :: summary_entries (S start) rest
  end.

(** The lines the method prints, in order; it changes nothing else. *)
Definition show_attendance_summary (m : Machine) : list summary_line :=
  [SummaryRule; SummaryTitle; SummaryRule] ++
  (if bool_decide (today_attendance (self m) = ∅) then [SummaryNobody]
   else summary_entries 1 (sorted_attendance m)) ++
  [SummaryRule; SummaryTotal (size (today_attendance (self m)))].

(** *** The body of the main loop *)

(** The key of a face that was not recognised. *)
Definition unknown_key : string := "不明_000".

(** [f"face_{i}"]. *)
Definition face_slot (i : nat) : string := "face_" +:+ pretty i.

(** The identity a prediction is taken for: [self.label_map.get(label,
    "不明_000")], replaced by the unknown key when the confidence exceeds the
    threshold. *)
Definition observed_name_id (label_map : gmap Z string) (threshold : Z)
    (label : Z) (confidence : conf) : string :=
  let name_id := default unknown_key (label_map !! label) in
  if conf_gt confidence threshold then unknown_key else name_id.

(** The test [stable_name_id and stable_name_id != "不明_000"]: [None] and
    the empty string are false. *)
Definition recordable (stable : option (string * conf)) : bool :=
  match stable with
  | Some (stable_name_id, _) =>
      bool_decide (stable_name_id ≠ "") && bool_decide (stable_name_id ≠ unknown_key)
  | None => false
  end.

(** One face of a frame, from the prediction on: smoothing, recording, and
    the [is_present] flag handed to the drawing. *)
Definition process_face (label_map : gmap Z string) (i : nat) (label : Z)
    (confidence : conf) : M Machine bool :=
  threshold ← gets (λ m, confidence_threshold (self m));
  let name_id := observed_name_id label_map threshold label confidence in
  stable ← update_recognition_buffer (face_slot i) name_id confidence;
  (if recordable stable then
     match stable with
     | Some (stable_name_id, stable_confidence) =>
         record_attendance stable_name_id stable_confidence ;; mret ()
     | None => mret ()
     end
   else mret ()) ;;
  gets (λ m, bool_decide (name_id ∈ today_attendance (self m))).

(** [for i, (x, y, w, h) in enumerate(faces)], over the predictions. *)
Fixpoint process_faces (label_map : gmap Z string) (i : nat)
    (predictions : list (Z * conf)) : M Machine () :=
  match predictions with
  | [] => mret ()
  | (label, confidence) :: rest =>
      process_face label_map i label confidence ;;
      process_faces label_map (S i) rest
  end.

Definition process_frame (label_map : gmap Z string)
    (predictions : list (Z * conf)) : M Machine () :=
  process_faces label_map 0 predictions.

(** The rows of the attendance file, none when it is absent. *)
Definition ledger (m : Machine) : list row :=
  default [] (fs (world m) !! attendance_file (self m)).

(** The row [record_attendance] writes for a key. *)
Definition attendance_row (m : Machine) (name_id : string) (confidence : conf) : row :=
  [now_date (world m); now_time (world m);
   (Codec.parse_name_id name_id).1; (Codec.parse_name_id name_id).2;
   format_1f confidence].

(** The machine after a recording that went through: the row at the end of
    the file, the key in the set, the line on the console. *)
Definition recorded (name_id : string) (confidence : conf) (m : Machine) : Machine :=
  set_stdout
    (stdout (world m) ++
       [Recorded (Codec.parse_name_id name_id).1 (Codec.parse_name_id name_id).2
          (format_1f confidence)])
    (set_today_attendance ({[name_id]} ∪ today_attendance (self m))
       (set_fs (<[attendance_file (self m) :=
                    ledger m ++ [attendance_row m name_id confidence]]> (fs (world m))) m)).

(** What the face loop may do to the attendance set: add keys, none of
    them empty or the unknown key. *)
Definition session_grows (m m' : Machine) : Prop :=
  today_attendance (self m) ⊆ today_attendance (self m') ∧
  ∀ k, k ∈ today_attendance (self m') → k ∉ today_attendance (self m) →
       k ≠ "" ∧ k ≠ unknown_key.
End Session.

(** ** train_model.py: the labels of the training set *)

Section Training.
Context {image : Type}.

(** What the script accumulates. *)
Record Training : Type := {
  faces : list image;
  labels : list nat;
  label_map : gmap nat string;
  label_count : nat;
}.

(** An entry of [os.listdir(data_path)]: its name, and when it is a directory
    what [cv2.imread] gives for each of its files ([None]: not an image). *)
Definition entry : Type := string * option (list (option image)).

(** The inner loop over the files of one person. *)
Fixpoint add_images (label : nat) (files : list (option image))
    (fl : list image * list nat) : list image * list nat :=
  match files with
  | [] => fl
  | None :: rest => add_images label rest fl
  | Some img :: rest => add_images label rest (fl.1 ++ [img], fl.2 ++ [label])
  end.

(** One turn of the outer loop. *)
Definition add_person (t : Training) (e : entry) : Training :=
  match e.2 with
  | None => t
  | Some files =>
      let fl := add_images (label_count t) files (faces t, labels t) in
      {| faces := fl.1;
         labels := fl.2;
         label_map := <[label_count t := e.1]> (label_map t);
         label_count := S (label_count t) |}
  end.

Definition training_start : Training :=
  {| faces := []; labels := []; label_map := ∅; label_count := 0 |}.

Definition collect (entries : list entry) : Training :=
  fold_left add_person entries training_start.

(** The files of a directory that [cv2.imread] could read. *)
Definition readable (files : list (option image)) : list image :=
  omap (λ f : option image, f) files.

(** What holds of the accumulators after any number of entries. *)
Definition labelled (names : list string) (t : Training) : Prop :=
  label_count t = length names ∧
  (∀ i, label_map t !! i = names !! i) ∧
  length (faces t) = length (labels t) ∧
  Forall (λ l, l < label_count t) (labels t) ∧
  StronglySorted le (labels t).

(** The names of the entries that are directories, in listing order. *)
Definition person_names (entries : list entry) : list string :=
  omap (λ e : entry, match e.2 with Some _ => Some e.1 | None => None end) entries.
End Training.

(** *** Samples for the session *)

(** [c > threshold] on a float and an integer: Python compares the exact
    values, without converting the integer. *)
Definition float_gt_Z (c : float) (threshold : Z) : bool :=
  match Prim2SF c with
  | S754_nan => false
  | S754_infinity s => negb s
  | S754_zero _ => (threshold <? 0)%Z
  | S754_finite s m e =>
      let v := if s then Z.neg m else Z.pos m in
      if (0 <=? e)%Z then (threshold <? v * 2 ^ e)%Z
      else (threshold * 2 ^ (- e) <? v)%Z
  end.

Global Instance float_comparison : Comparison float_runtime := float_gt_Z.

Definition sample_label_map : gmap Z string :=
  {[ 0%Z := "Alice_001"; 1%Z := "Bob_002" ]}.

(** A machine whose ledger file does not exist. *)
Definition no_ledger : @Machine float_runtime :=
  {| self := init 100 "attendance.csv";
     world := {| fs := ∅; read_fault := None; append_fault := false;
                 now_date := "2025-04-07"; now_time := "08:55:12";
                 stdout := [] |} |}.

(** A machine with only the header in its ledger. *)
Definition fresh_ledger : @Machine float_runtime :=
  sample_machine float_runtime [ledger_header] None false.

Definition sample_entries : list (@entry nat) :=
  [ ("Alice_001", Some [Some 11; None; Some 12]);
    ("notes.txt", None);
    ("Bob_002", Some []);
    ("Carol_003", Some [Some 31]) ].

(** The machine after slot ["face_0"] saw Alice twice, on a ledger that
    holds only its header. *)
Definition after_two_alice : @Machine float_runtime :=
  (observe_all (slot_calls "face_0" (take 2 alice_alice_bob)) fresh_ledger).2.

(** The same with Alice in the attendance set. *)
Definition alice_listed : @Machine float_runtime :=
  set_today_attendance {["Bob_002"; "Alice_001"]} fresh_ledger.

(** The machine after the five observations over two slots. *)
Definition after_two_slot_run : @Machine float_runtime :=
  (observe_all two_slot_run healthy).2.

(** The sample rows followed by the row written for Carol, and for a key
    without a separator. *)
Definition rows_with_carol : list row :=
  sample_rows ++ [["2025-04-07"; "08:55:12"; "Carol"; "003"; "38.2"]].

Definition rows_with_dave : list row :=
  sample_rows ++ [["2025-04-07"; "08:55:12"; "Dave"; "000"; "44.0"]].

(** * Properties *)

(** ** Identity codec *)

Section CodecFacts.
Import Codec.

Example parse_plain : parse_name_id "Alice_001" = ("Alice", "001").
Proof. reflexivity. Qed.

Example parse_inner_separator : parse_name_id "Mary_Ann_042" = ("Mary_Ann", "042").
Proof. reflexivity. Qed.

Example parse_no_separator : parse_name_id "Alice" = ("Alice", "000").
Proof. reflexivity. Qed.

Example parse_trailing_separator : parse_name_id "Alice_" = ("Alice", "").
Proof. reflexivity. Qed.

Lemma append_String c (a b : string) : String c a +:+ b = String c (a +:+ b).
Proof. reflexivity. Qed.

Lemma split_last_None s : contains_sep s = false → split_last s = None.
Proof.
  induction s as [|c r IH]; simpl; [done|].
  destruct (Ascii.eqb c sep); [done|].
  intros Hr. by rewrite IH.
Qed.

Lemma split_last_is_Some s : contains_sep s = true → is_Some (split_last s).
Proof.
  induction s as [|c r IH]; simpl; [done|].
  destruct (split_last r) as [[a b]|] eqn:Hr; [by eexists|].
  destruct (Ascii.eqb c sep); [by eexists|].
  intros Hc. destruct (IH Hc) as [? [=]].
Qed.

Lemma contains_sep_join name student_id :
  contains_sep (join_name_id name student_id) = true.
Proof.
  unfold join_name_id. induction name as [|c r IH]; simpl.
  - reflexivity.
  - by destruct (Ascii.eqb c sep).
Qed.

Lemma split_last_join name student_id :
  contains_sep student_id = false →
  split_last (join_name_id name student_id) = Some (name, student_id).
Proof.
  intros Hid. unfold join_name_id. induction name as [|c r IH]; simpl.
  - by rewrite (split_last_None _ Hid).
  - by rewrite IH.
Qed.

Lemma join_split_last s a b :
  split_last s = Some (a, b) → join_name_id a b = s.
Proof.
  unfold join_name_id. revert a. induction s as [|c r IH]; intros a; simpl; [done|].
  destruct (split_last r) as [[a' b']|] eqn:Hr.
  - intros [= <- <-]. rewrite append_String. f_equal. by apply IH.
  - destruct (Ascii.eqb c sep) eqn:Hc; [|done].
    intros [= <- <-]. apply Ascii.eqb_eq in Hc. by subst c.
Qed.

(** On a key that is a [str] the body of the [try] returns: the guard
    [["_" in name_id]] makes the split yield two parts. *)
Lemma parse_name_id_try_Return name_id :
  ∃ p, parse_name_id_try name_id = Return p.
Proof.
  unfold parse_name_id_try, rsplit1.
  destruct (contains_sep name_id) eqn:Hc; [|by eexists].
  destruct (split_last_is_Some _ Hc) as [[a b] ->]. by eexists.
Qed.

(** C6. Codec round trip: when [student_id] holds no separator, decoding
    the key [name ++ "_" ++ student_id] gives back exactly
    [(name, student_id)], also when [name] itself holds separators. *)
Theorem parse_name_id_join name student_id :
  contains_sep student_id = false →
  parse_name_id (join_name_id name student_id) = (name, student_id).
Proof.
  intros Hid. unfold parse_name_id, parse_name_id_try, rsplit1.
  by rewrite contains_sep_join, (split_last_join _ _ Hid).
Qed.

Lemma parse_name_id_join_witness :
  contains_sep "042" = false ∧
  parse_name_id (join_name_id "Mary_Ann" "042") = ("Mary_Ann", "042").
Proof. split; [reflexivity | apply parse_name_id_join; reflexivity]. Defined.

(** C10. Inverse round trip: for a key that holds at least one separator,
    joining the two parts [parse_name_id] returns with ["_"] gives the key
    back; the split drops nothing but the last separator. *)
Theorem join_parse_name_id key :
  contains_sep key = true →
  join_name_id (parse_name_id key).1 (parse_name_id key).2 = key.
Proof.
  intros Hc. unfold parse_name_id, parse_name_id_try, rsplit1. rewrite Hc.
  destruct (split_last_is_Some _ Hc) as [[a b] Hs]. rewrite Hs. simpl.
  by apply join_split_last.
Qed.

Lemma join_parse_name_id_witness :
  contains_sep "Mary_Ann_042" = true ∧
  join_name_id (parse_name_id "Mary_Ann_042").1 (parse_name_id "Mary_Ann_042").2
    = "Mary_Ann_042".
Proof. split; [reflexivity | apply join_parse_name_id; reflexivity]. Defined.
End CodecFacts.

(** ** Attendance ledger *)

Section LedgerFacts.
Context {rt : Runtime}.
Implicit Types (m : Machine) (rows : list row).

Lemma set_today_attendance_same m :
  set_today_attendance (today_attendance (self m)) m = m.
Proof. by destruct m as [[] ?]. Qed.

Lemma set_today_attendance_twice t1 t2 m :
  set_today_attendance t1 (set_today_attendance t2 m) = set_today_attendance t1 m.
Proof. reflexivity. Qed.

Lemma world_set_today_attendance t m : world (set_today_attendance t m) = world m.
Proof. reflexivity. Qed.

Lemma attendance_file_set_today_attendance t m :
  attendance_file (self (set_today_attendance t m)) = attendance_file (self m).
Proof. reflexivity. Qed.

(** C1. Idempotent recording: for a key already in the in-memory set,
    [record_attendance] returns [False] and leaves the whole machine as it
    was: no row is appended to the ledger and the set is unchanged. *)
Theorem record_attendance_present m name_id confidence :
  name_id ∈ today_attendance (self m) →
  record_attendance name_id confidence m = (Return false, m).
Proof.
  intros Hin. unfold record_attendance, mbind, M_bind, gets.
  by rewrite bool_decide_eq_true_2.
Qed.

(** A first recording whose append succeeds: one row is added at the end of
    the ledger, then the key enters the set, and the call returns [True]. *)
Lemma record_attendance_fresh m name_id confidence :
  name_id ∉ today_attendance (self m) →
  append_fault (world m) = false →
  ∃ m',
    record_attendance name_id confidence m = (Return true, m') ∧
    today_attendance (self m') = {[name_id]} ∪ today_attendance (self m) ∧
    fs (world m') !! attendance_file (self m) =
      Some (default [] (fs (world m) !! attendance_file (self m)) ++
            [[now_date (world m); now_time (world m);
              (Codec.parse_name_id name_id).1; (Codec.parse_name_id name_id).2;
              format_1f confidence]]).
Proof.
  intros Hin Hok. unfold record_attendance, mbind, M_bind, gets, try_except.
  rewrite bool_decide_eq_false_2 by done.
  destruct (Codec.parse_name_id name_id) as [name student_id].
  unfold append_row. rewrite Hok. simpl.
  eexists. split; [reflexivity|]. simpl. split; [done|].
  by rewrite lookup_insert_eq.
Qed.


(** The loop of [load_today_attendance] adds the keys of today's rows to
    the set it starts from and never raises. *)
Lemma load_loop today rows m :
  for_each rows (load_row today) m
  = (Return (),
     set_today_attendance
       (list_to_set (today_keys today rows) ∪ today_attendance (self m)) m).
Proof.
  revert m. induction rows as [|r rows IH]; intros m.
  - simpl. unfold mret, M_ret. f_equal.
    rewrite (left_id_L ∅ (∪)). by rewrite set_today_attendance_same.
  - cbn [for_each]. unfold mbind, M_bind, today_keys. cbn [omap list_omap].
    unfold load_row at 1. destruct (today_key today r) as [k|] eqn:Hk.
    + unfold today_add at 1, modify. rewrite IH. f_equal.
      rewrite set_today_attendance_twice. f_equal.
      cbn [self set_today_attendance today_attendance].
      fold (today_keys today rows). rewrite list_to_set_cons.
      apply set_eq. intros x. rewrite !elem_of_union. tauto.
    + unfold mret at 1, M_ret. rewrite IH. done.
Qed.

(** What a reload does, by the state of the storage. *)
Lemma load_today_attendance_eq m :
  load_today_attendance m =
    let today := now_date (world m) in
    match fs (world m) !! attendance_file (self m) with
    | None => (Return (), set_today_attendance ∅ m)
    | Some rows =>
        match read_fault (world m) with
        | None =>
            let t := list_to_set (today_keys today (drop 1 rows)) in
            (Return (),
             set_stdout (stdout (world m) ++ [TodayCount (size t)])
               (set_today_attendance t m))
        | Some n =>
            let t := list_to_set (today_keys today (drop 1 (take n rows))) in
            (Return (),
             set_stdout (stdout (world m) ++ [LoadWarning OSError])
               (set_today_attendance t m))
        end
    end.
Proof.
  unfold load_today_attendance, mbind, M_bind, gets, modify, try_except.
  unfold attendance_file_exists, read_rows. cbv beta iota.
  rewrite !world_set_today_attendance, !attendance_file_set_today_attendance.
  destruct (fs (world m) !! attendance_file (self m)) as [rows|] eqn:Hf.
  - rewrite bool_decide_eq_true_2 by (by eexists). cbv beta iota.
    rewrite !world_set_today_attendance, !attendance_file_set_today_attendance, Hf.
    destruct (read_fault (world m)) as [n|] eqn:Hr.
    + rewrite load_loop, set_today_attendance_twice.
      cbn [self set_today_attendance today_attendance].
      rewrite (right_id_L ∅ (∪)). reflexivity.
    + rewrite load_loop, set_today_attendance_twice.
      cbn [self set_today_attendance today_attendance].
      rewrite (right_id_L ∅ (∪)). reflexivity.
  - rewrite bool_decide_eq_false_2; [done|]. by intros [? ?].
Qed.

Lemma today_key_dated today r k : today_key today r = Some k → dated today r.
Proof.
  destruct r as [|d [|? [|? [|? ?]]]]; simpl; try done.
  case_decide; [|done]. intros _. unfold dated. simpl. by subst.
Qed.

(** Rows of other dates contribute nothing. *)
Lemma today_keys_filter_dated today rows :
  today_keys today (filter (dated today) rows) = today_keys today rows.
Proof.
  unfold today_keys. induction rows as [|r rows IH]; [done|].
  rewrite filter_cons. case_decide as Hd.
  - cbn [omap list_omap]. by rewrite IH.
  - cbn [omap list_omap]. destruct (today_key today r) as [k|] eqn:Hk; [|done].
    by apply today_key_dated in Hk.
Qed.

Lemma size_list_to_set_remove_dups (l : list string) :
  size (list_to_set (C := gset string) l) = length (remove_dups l).
Proof.
  rewrite <- (size_list_to_set (C := gset string) (remove_dups l))
    by apply NoDup_remove_dups.
  f_equal. apply set_eq. intros x.
  by rewrite !elem_of_list_to_set, elem_of_remove_dups.
Qed.

(** C4 (amended). Reload with an unreadable store: when the store exists
    and reading it raises, [load_today_attendance] still returns normally
    and only prints a warning, but the in-memory set is not the one from
    before the call: it was emptied before the read and holds exactly the
    keys of today's rows that were read before the failure. *)
Theorem load_today_attendance_read_fault m rows n :
  fs (world m) !! attendance_file (self m) = Some rows →
  read_fault (world m) = Some n →
  ∃ m',
    load_today_attendance m = (Return (), m') ∧
    today_attendance (self m') =
      list_to_set (today_keys (now_date (world m)) (drop 1 (take n rows))) ∧
    stdout (world m') = stdout (world m) ++ [LoadWarning OSError] ∧
    fs (world m') = fs (world m).
Proof.
  intros Hf Hr. rewrite load_today_attendance_eq, Hf, Hr. cbv zeta.
  eexists. split; [reflexivity|]. done.
Qed.

(** The key of a row with at least four cells, as the loop spells it. *)
Lemma today_key_Some today r k :
  today_key today r = Some k ↔
  ∃ time name student_id rest,
    r = today :: time :: name :: student_id :: rest ∧
    k = name +:+ "_" +:+ student_id.
Proof.
  split.
  - destruct r as [|d [|time [|name [|student_id rest]]]]; simpl; try done.
    case_decide as Hd; [|done]. intros [= <-]. subst d.
    by exists time, name, student_id, rest.
  - intros (time & name & student_id & rest & -> & ->). simpl.
    by rewrite decide_True.
Qed.

(** C7. Reload consistency: with a readable store, whose first row is the
    header, the set after [load_today_attendance] has as members exactly
    the keys [name_student_id] of the rows dated today that have at least
    four cells; so when these rows carry N distinct keys the set has N
    members; and a store with the same rows for today and any other rows
    for other dates gives the same set. *)
Theorem load_today_attendance_reload m content :
  fs (world m) !! attendance_file (self m) = Some content →
  read_fault (world m) = None →
  let today := now_date (world m) in
  let t := today_attendance (self (load_today_attendance m).2) in
  (∀ k, k ∈ t ↔
     ∃ time name student_id rest,
       today :: time :: name :: student_id :: rest ∈ drop 1 content ∧
       k = name +:+ "_" +:+ student_id) ∧
  (∀ keys,
     NoDup keys →
     (∀ k, k ∈ keys ↔
        ∃ time name student_id rest,
          today :: time :: name :: student_id :: rest ∈ drop 1 content ∧
          k = name +:+ "_" +:+ student_id) →
     size t = length keys) ∧
  (∀ content',
     filter (dated today) (drop 1 content') = filter (dated today) (drop 1 content) →
     today_attendance
       (self (load_today_attendance (with_rows content' m)).2) = t).
Proof.
  intros Hf Hr today t.
  assert (Ht : t = list_to_set (today_keys today (drop 1 content))).
  { unfold t. by rewrite load_today_attendance_eq, Hf, Hr. }
  assert (Hmem : ∀ k, k ∈ t ↔
     ∃ time name student_id rest,
       today :: time :: name :: student_id :: rest ∈ drop 1 content ∧
       k = name +:+ "_" +:+ student_id).
  { intros k. rewrite Ht, elem_of_list_to_set. unfold today_keys.
    rewrite list_elem_of_omap. split.
    - intros (r & Hin & Hk). apply today_key_Some in Hk
        as (time & name & student_id & rest & -> & ->). eauto 10.
    - intros (time & name & student_id & rest & Hin & ->).
      eexists. split; [done|]. apply today_key_Some. eauto 10. }
  split; [done|split].
  - intros keys Hnodup Hkeys. unfold size, set_size. cbn. apply Permutation_length.
    apply NoDup_Permutation; [apply NoDup_elements|done|].
    intros k. rewrite elem_of_elements, Hkeys. apply Hmem.
  - intros content' Hsame. rewrite load_today_attendance_eq.
    unfold with_rows. cbn [world self set_fs fs read_fault now_date].
    rewrite lookup_insert_eq, Hr. cbv zeta.
    cbn [snd self today_attendance set_stdout set_today_attendance].
    rewrite Ht. fold today.
    by rewrite <- (today_keys_filter_dated today (drop 1 content')), Hsame,
      today_keys_filter_dated.
Qed.
End LedgerFacts.

(** ** Recognition smoother *)

Section SmootherFacts.
Context {rt : Runtime}.
Implicit Types (m : Machine) (h : list (string * conf)) (names : list string).

Lemma recognition_buffer_set b m :
  recognition_buffer (self (set_recognition_buffer b m)) = b.
Proof. reflexivity. Qed.

Lemma buffer_threshold_set b m :
  buffer_threshold (self (set_recognition_buffer b m)) = buffer_threshold (self m).
Proof. reflexivity. Qed.

Lemma set_recognition_buffer_twice b1 b2 m :
  set_recognition_buffer b1 (set_recognition_buffer b2 m) = set_recognition_buffer b1 m.
Proof. reflexivity. Qed.

Local Ltac buffer_steps H :=
  do 6 (cbn [self world recognition_buffer buffer_threshold
             set_recognition_buffer default id];
        cbv beta iota; rewrite ?H, ?lookup_insert_eq, ?insert_insert_eq).

Local Ltac verdict_cases :=
  repeat (case_bool_decide; cbv beta iota; try lia);
  repeat (case_match; simplify_eq; try done);
  try reflexivity; try (cbn [length] in *; lia).

(** The method, as one equation: the slot's history becomes the trimmed
    extension, every other slot is left alone, and the value returned is
    the verdict on the new history. *)
Lemma update_recognition_buffer_eq m face_id name_id confidence :
  update_recognition_buffer face_id name_id confidence m =
    let h := trim (buffer_threshold (self m))
               (history face_id m ++ [(name_id, confidence)]) in
    (verdict (buffer_threshold (self m)) h,
     set_recognition_buffer (<[face_id := h]> (recognition_buffer (self m))) m).
Proof.
  destruct m as [[f ct t b k] w].
  unfold update_recognition_buffer, history, trim, verdict.
  unfold buffer_pop0, buffer_set, buffer_get, lift, raise, modify, gets,
    mbind, M_bind, mret, M_ret.
  cbn [self world recognition_buffer buffer_threshold set_recognition_buffer].
  destruct (b !! face_id) as [h0|] eqn:Hb.
  - rewrite bool_decide_eq_true_2 by (by eexists).
    buffer_steps Hb.
    destruct (h0 ++ [(name_id, confidence)]) as [|y r] eqn:Hh1; [by destruct h0|].
    case_bool_decide.
    + buffer_steps Hb. rewrite skipn_cons, drop_0. verdict_cases.
    + buffer_steps Hb. verdict_cases.
  - rewrite bool_decide_eq_false_2 by (by intros [? ?]).
    buffer_steps Hb. rewrite app_nil_l.
    case_bool_decide.
    + buffer_steps Hb. rewrite skipn_cons, drop_0. verdict_cases.
    + buffer_steps Hb. verdict_cases.
Qed.

Lemma history_update m face_id name_id confidence face :
  history face (update_recognition_buffer face_id name_id confidence m).2 =
    if decide (face = face_id)
    then trim (buffer_threshold (self m)) (history face_id m ++ [(name_id, confidence)])
    else history face m.
Proof.
  rewrite update_recognition_buffer_eq. unfold history. cbv zeta.
  cbn [snd]. rewrite recognition_buffer_set.
  case_decide as Hf; [subst; by rewrite lookup_insert_eq|].
  by rewrite lookup_insert_ne.
Qed.

Lemma buffer_threshold_update m face_id name_id confidence :
  buffer_threshold (self (update_recognition_buffer face_id name_id confidence m).2)
  = buffer_threshold (self m).
Proof. by rewrite update_recognition_buffer_eq. Qed.

Lemma buffer_threshold_observe_all calls m :
  buffer_threshold (self (observe_all calls m).2) = buffer_threshold (self m).
Proof.
  revert m. induction calls as [|[[f n] c] calls IH]; intros m; [done|].
  cbn [observe_all].
  destruct (update_recognition_buffer f n c m) as [r m1] eqn:Hu.
  destruct (observe_all calls m1) as [rs m2] eqn:Ho. cbn [snd].
  replace m2 with (observe_all calls m1).2 by by rewrite Ho.
  rewrite IH. replace m1 with (update_recognition_buffer f n c m).2 by by rewrite Hu.
  apply buffer_threshold_update.
Qed.

Lemma observe_all_app calls1 calls2 m :
  observe_all (calls1 ++ calls2) m =
    ((observe_all calls1 m).1 ++ (observe_all calls2 (observe_all calls1 m).2).1,
     (observe_all calls2 (observe_all calls1 m).2).2).
Proof.
  revert m. induction calls1 as [|[[f n] c] calls1 IH]; intros m.
  - cbn. by destruct (observe_all calls2 m).
  - cbn [observe_all app].
    destruct (update_recognition_buffer f n c m) as [r m1].
    rewrite IH. destruct (observe_all calls1 m1) as [rs m2]. done.
Qed.

(** *** The trimmed window *)

Lemma trim_length k h x : length h ≤ k → length (trim k (h ++ [x])) ≤ k.
Proof.
  intros Hk. unfold trim. case_bool_decide.
  - rewrite length_drop, length_app. simpl. lia.
  - lia.
Qed.

Lemma last_n_length {A} k (l : list A) : length (last_n k l) ≤ k.
Proof. unfold last_n. rewrite length_drop. lia. Qed.

Lemma last_n_short {A} k (l : list A) : length l ≤ k → last_n k l = l.
Proof. intros Hk. unfold last_n. by replace (length l - k) with 0 by lia. Qed.

(** Appending to the last [k] items and trimming gives the last [k] items
    of the extended list: the oldest goes first. *)
Lemma trim_last_n k (l : list (string * conf)) x :
  trim k (last_n k l ++ [x]) = last_n k (l ++ [x]).
Proof.
  unfold trim, last_n. rewrite !length_app, length_drop. cbn [length].
  case_bool_decide as Hlt.
  - assert (Hk : k ≤ length l) by lia.
    destruct (decide (k = 0)) as [->|Hpos].
    + rewrite Nat.sub_0_r, drop_all. cbn [app drop].
      symmetry. apply drop_ge. rewrite length_app. cbn. lia.
    + rewrite drop_app_le by (rewrite length_drop; lia).
      rewrite drop_app_le by lia.
      rewrite drop_drop. f_equal. f_equal. lia.
  - replace (length l - k) with 0 by lia.
    replace (length l + 1 - k) with 0 by lia. done.
Qed.

(** *** The buffer over a run *)

Lemma slot_observations_snoc face past f n (c : conf) :
  slot_observations face (past ++ [(f, n, c)]) =
    slot_observations face past ++ (if decide (f = face) then [(n, c)] else []).
Proof.
  unfold slot_observations. rewrite omap_app. cbn. by case_decide.
Qed.

Lemma buffer_tracks_history past m face :
  buffer_tracks past m →
  history face m = last_n (buffer_threshold (self m)) (slot_observations face past).
Proof.
  intros Ht. unfold history. rewrite Ht.
  by destruct (slot_observations face past).
Qed.

Lemma buffer_tracks_update past m f n c :
  buffer_tracks past m →
  buffer_tracks (past ++ [(f, n, c)]) (update_recognition_buffer f n c m).2.
Proof.
  intros Ht face. rewrite buffer_threshold_update, slot_observations_snoc.
  rewrite update_recognition_buffer_eq. cbv zeta. cbn [snd].
  rewrite recognition_buffer_set. case_decide as Hf.
  - subst face. rewrite lookup_insert_eq.
    rewrite (buffer_tracks_history past) by done. rewrite trim_last_n.
    by destruct (slot_observations f past).
  - rewrite lookup_insert_ne by done. rewrite app_nil_r. apply Ht.
Qed.

Lemma buffer_tracks_observe_all calls past m :
  buffer_tracks past m →
  buffer_tracks (past ++ calls) (observe_all calls m).2.
Proof.
  revert past m. induction calls as [|[[f n] c] calls IH]; intros past m Ht.
  - by rewrite app_nil_r.
  - cbn [observe_all].
    destruct (update_recognition_buffer f n c m) as [r m1] eqn:Hu.
    specialize (IH (past ++ [(f, n, c)]) m1).
    destruct (observe_all calls m1) as [rs m2].
    rewrite cons_middle, app_assoc. apply IH.
    replace m1 with (update_recognition_buffer f n c m).2 by by rewrite Hu.
    by apply buffer_tracks_update.
Qed.

(** C8. Bounded FIFO buffer: started from an empty buffer, after any run of
    calls every slot's history is at most [buffer_threshold] long and is
    exactly the last [buffer_threshold] observations fed to that slot, in
    order: when the capacity is exceeded it is the oldest that went. *)
Theorem recognition_buffer_bounded_fifo m calls face_id :
  recognition_buffer (self m) = ∅ →
  let m' := (observe_all calls m).2 in
  let k := buffer_threshold (self m) in
  buffer_threshold (self m') = k ∧
  length (history face_id m') ≤ k ∧
  history face_id m' = last_n k (slot_observations face_id calls) ∧
  (is_Some (recognition_buffer (self m') !! face_id) ↔
     slot_observations face_id calls ≠ []).
Proof.
  intros Hempty m' k.
  assert (Ht : buffer_tracks calls m').
  { apply (buffer_tracks_observe_all calls [] m). intros face.
    by rewrite Hempty, lookup_empty. }
  assert (Hk : buffer_threshold (self m') = k)
    by apply buffer_threshold_observe_all.
  assert (Hh : history face_id m' = last_n k (slot_observations face_id calls)).
  { by rewrite (buffer_tracks_history calls), Hk. }
  split_and!; [done| |done|].
  - rewrite Hh. apply last_n_length.
  - rewrite (Ht face_id). destruct (slot_observations face_id calls); [|done].
    split; [by intros [? ?]|done].
Qed.

(** *** The maximum by count *)

(** [max] returns the first item of the enumeration whose key is maximal:
    every item before it has a strictly smaller key, none after it a
    greater one. *)
Lemma max_loop_first key best l :
  ∃ before w after,
    best :: l = before ++ w :: after ∧
    max_loop key best l = w ∧
    (∀ x, x ∈ before → key x < key w) ∧
    (∀ x, x ∈ after → key x ≤ key w).
Proof.
  revert best. induction l as [|x r IH]; intros best.
  - exists [], best, []. split_and!; [done|done| |]; by intros ? ?%elem_of_nil.
  - cbn [max_loop]. destruct (Nat.ltb_spec (key best) (key x)) as [Hlt|Hge].
    + destruct (IH x) as (before & w & after & Hsplit & Hmax & Hbefore & Hafter).
      exists (best :: before), w, after. split_and!; [by rewrite Hsplit|done| |done].
      intros y [->|Hy]%elem_of_cons; [|by apply Hbefore].
      destruct before as [|b before'].
      * injection Hsplit as <- _. lia.
      * injection Hsplit as <- _.
        specialize (Hbefore x (list_elem_of_here _ _)). lia.
    + destruct (IH best) as (before & w & after & Hsplit & Hmax & Hbefore & Hafter).
      destruct before as [|b before'].
      * injection Hsplit as <- ->. exists [], best, (x :: after).
        split_and!; [done|done|by intros ? ?%elem_of_nil|].
        intros y [->|Hy]%elem_of_cons; [lia|by apply Hafter].
      * injection Hsplit as <- ->. exists (best :: x :: before'), w, after.
        split_and!; [done|done| |done].
        intros y [->|[->|Hy]%elem_of_cons]%elem_of_cons.
        -- apply Hbefore. left.
        -- specialize (Hbefore best (list_elem_of_here _ _)). lia.
        -- apply Hbefore. by right.
Qed.

Lemma py_count_le_length x names : py_count x names ≤ length names.
Proof. unfold py_count. apply length_filter. Qed.

Lemma py_count_pos x names : 0 < py_count x names ↔ x ∈ names.
Proof.
  unfold py_count. split.
  - intros Hpos. destruct (filter (λ y, y = x) names) as [|y l] eqn:Hf; [simpl in Hpos; lia|].
    assert (Hy : y ∈ filter (λ y, y = x) names) by (rewrite Hf; left).
    apply list_elem_of_filter in Hy as [-> ?]. done.
  - intros Hin.
    assert (Hx : x ∈ filter (λ y, y = x) names) by by apply list_elem_of_filter.
    destruct (filter (λ y, y = x) names); [by apply elem_of_nil in Hx|simpl; lia].
Qed.

(** Two different identities share the window. *)
Lemma py_count_two x y names :
  x ≠ y → py_count x names + py_count y names ≤ length names.
Proof.
  intros Hne. unfold py_count. induction names as [|z names IH]; [done|].
  rewrite !filter_cons. cbn [length].
  repeat case_decide; subst; cbn [length]; try lia. done.
Qed.

(** The number of confidences averaged is the count divided by. *)
Lemma confidences_of_length name h :
  length (confidences_of name h) = py_count name h.*1.
Proof.
  unfold confidences_of, py_count. rewrite length_fmap.
  induction h as [|[n c] h IH]; [done|].
  rewrite fmap_cons, !filter_cons. cbn [fst].
  case_decide; cbn [length]; by rewrite IH.
Qed.

(** The average the method computes is the arithmetic mean of the
    confidences of the identity, whenever the identity is in the window. *)
Lemma avg_confidence_mean h name :
  name ∈ h.*1 →
  avg_confidence h name = Return (arithmetic_mean (confidences_of name h)).
Proof.
  intros Hin%py_count_pos. unfold avg_confidence, arithmetic_mean.
  rewrite confidences_of_length.
  destruct (py_count name h.*1) as [|n]; [lia|done].
Qed.

(** Feeding a slot while its history stays short of the threshold: every
    call returns nothing and the history grows by what was fed. *)
Lemma observe_all_short face_id obs m :
  length (history face_id m) + length obs < buffer_threshold (self m) →
  (observe_all (slot_calls face_id obs) m).1 = replicate (length obs) (Return None) ∧
  history face_id (observe_all (slot_calls face_id obs) m).2 = history face_id m ++ obs.
Proof.
  revert m. induction obs as [|[n c] obs IH]; intros m Hlen.
  - cbn. by rewrite app_nil_r.
  - cbn [slot_calls fmap list_fmap observe_all fst snd].
    fold (slot_calls face_id obs).
    pose proof (update_recognition_buffer_eq m face_id n c) as Hu.
    pose proof (history_update m face_id n c face_id) as Hh.
    pose proof (buffer_threshold_update m face_id n c) as Hk.
    destruct (update_recognition_buffer face_id n c m) as [r m1].
    cbv zeta in Hu. injection Hu as Hr _. cbn [snd] in Hh, Hk.
    rewrite decide_True in Hh by done.
    assert (Htrim : trim (buffer_threshold (self m)) (history face_id m ++ [(n, c)])
                    = history face_id m ++ [(n, c)]).
    { unfold trim. rewrite bool_decide_eq_false_2; [done|].
      rewrite length_app. cbn [length] in *. lia. }
    rewrite Htrim in Hh, Hr.
    destruct (IH m1) as [IH1 IH2].
    { rewrite Hh, Hk, length_app. cbn [length] in *. lia. }
    destruct (observe_all (slot_calls face_id obs) m1) as [rs m2].
    cbn [fst snd] in *. split.
    + rewrite IH1, Hr. cbn [length replicate]. f_equal.
      unfold verdict. rewrite bool_decide_eq_false_2; [done|].
      rewrite length_app. cbn [length] in *. lia.
    + rewrite IH2, Hh. by rewrite <- app_assoc.
Qed.
(** *** What the method returns *)

Section SetOrder.
(** Iterating [set(names)] visits the names of the list and no other. *)
Hypothesis set_iter_elem : ∀ names x, x ∈ set_iter names ↔ x ∈ names.

Lemma most_common_first names :
  names ≠ [] →
  ∃ w before after,
    set_iter names = before ++ w :: after ∧
    most_common names = Return w ∧
    (∀ x, x ∈ before → py_count x names < py_count w names) ∧
    (∀ x, x ∈ after → py_count x names ≤ py_count w names).
Proof.
  intros Hne. unfold most_common, py_max.
  destruct (set_iter names) as [|best l] eqn:Hs.
  - destruct names as [|n names]; [done|].
    assert (Hn : n ∈ set_iter (n :: names)) by (apply set_iter_elem; left).
    rewrite Hs in Hn. by apply elem_of_nil in Hn.
  - destruct (max_loop_first (λ x, py_count x names) best l)
      as (before & w & after & Hsplit & Hmax & Hbefore & Hafter).
    exists w, before, after. by rewrite Hmax.
Qed.

Lemma most_common_max names w x :
  most_common names = Return w → py_count x names ≤ py_count w names.
Proof.
  intros Hw. destruct (decide (x ∈ names)) as [Hin|Hout].
  - assert (Hne : names ≠ []) by (intros ->; by apply elem_of_nil in Hin).
    destruct (most_common_first names Hne)
      as (w' & before & after & Hsplit & Hmax & Hbefore & Hafter).
    rewrite Hw in Hmax. injection Hmax as <-.
    apply set_iter_elem in Hin. rewrite Hsplit in Hin.
    apply elem_of_app in Hin as [Hin|[->|Hin]%elem_of_cons].
    + specialize (Hbefore x Hin). lia.
    + done.
    + by apply Hafter.
  - assert (py_count x names = 0); [|lia].
    destruct (py_count x names) eqn:Hc; [done|].
    exfalso. apply Hout, py_count_pos. lia.
Qed.

Lemma most_common_elem names w : most_common names = Return w → w ∈ names.
Proof.
  unfold most_common, py_max. destruct (set_iter names) as [|best l] eqn:Hs; [done|].
  intros [= <-]. apply set_iter_elem. rewrite Hs.
  destruct (max_loop_first (λ x, py_count x names) best l)
    as (before & w & after & -> & -> & _).
  apply elem_of_app. right. left.
Qed.

(** The verdict on a non-empty full window, in terms of the winner. *)
Lemma verdict_full k h :
  h ≠ [] → k ≤ length h →
  ∃ w, most_common h.*1 = Return w ∧
    verdict k h =
      Return (if bool_decide (k - 1 ≤ py_count w h.*1)
              then Some (w, arithmetic_mean (confidences_of w h)) else None).
Proof.
  intros Hne Hk.
  assert (Hnames : h.*1 ≠ []) by (by destruct h).
  destruct (most_common_first _ Hnames) as (w & ? & ? & _ & Hw & _).
  exists w. split; [done|]. unfold verdict.
  rewrite bool_decide_eq_true_2, Hw by done.
  rewrite (avg_confidence_mean h w) by by eapply most_common_elem.
  repeat case_bool_decide; try done; lia.
Qed.

(** C9. Tie-break: on a full window the identity picked is the first one,
    in the iteration order of [set(names)], whose count is maximal: all
    identities enumerated before it have strictly smaller counts, none
    has a greater one, so among tied identities the first enumerated
    wins; it is returned with its mean confidence when its count reaches
    [buffer_threshold - 1], and nothing is returned otherwise. *)
Theorem most_common_first_encountered m face_id name_id confidence :
  let r := update_recognition_buffer face_id name_id confidence m in
  let k := buffer_threshold (self m) in
  let h := history face_id r.2 in
  let names := h.*1 in
  0 < k → k ≤ length h →
  ∃ w before after,
    set_iter names = before ++ w :: after ∧
    (∀ x, x ∈ before → py_count x names < py_count w names) ∧
    (∀ x, x ∈ after → py_count x names ≤ py_count w names) ∧
    (∀ x, py_count x names ≤ py_count w names) ∧
    most_common names = Return w ∧
    r.1 = Return (if bool_decide (k - 1 ≤ py_count w names)
                  then Some (w, arithmetic_mean (confidences_of w h))
                  else None).
Proof.
  intros r k h names Hpos Hfull.
  assert (Hne : h ≠ []) by (intros Hnil; rewrite Hnil in Hfull; simpl in Hfull; lia).
  assert (Hnames : names ≠ []) by (unfold names; by destruct h).
  destruct (most_common_first _ Hnames)
    as (w & before & after & Hsplit & Hw & Hbefore & Hafter).
  exists w, before, after. split_and!; try done.
  - intros x. by apply most_common_max.
  - destruct (verdict_full k h Hne Hfull) as (w' & Hw' & Hv).
    subst names. rewrite Hw in Hw'. injection Hw' as <-.
    rewrite <- Hv. unfold r, h, r, k.
    rewrite history_update, decide_True by done.
    by rewrite update_recognition_buffer_eq.
Qed.

(** C5. Sub-quorum silence: the call returns nothing whenever the slot's
    history after it is shorter than [buffer_threshold], and whenever no
    identity occurs at least [buffer_threshold - 1] times in it. *)
Theorem sub_quorum_silence m face_id name_id confidence :
  let r := update_recognition_buffer face_id name_id confidence m in
  let k := buffer_threshold (self m) in
  let h := history face_id r.2 in
  (length h < k ∨ ∀ a, (Z.of_nat (py_count a h.*1) < Z.of_nat k - 1)%Z) →
  r.1 = Return None.
Proof.
  intros r k h Hsub.
  assert (Hr : r.1 = verdict k h).
  { unfold r, h, r, k. rewrite history_update, decide_True by done.
    by rewrite update_recognition_buffer_eq. }
  rewrite Hr. unfold verdict. case_bool_decide as Hfull; [|done].
  destruct Hsub as [Hshort|Hnone]; [lia|].
  destruct (most_common h.*1) as [w|e] eqn:Hw.
  - rewrite bool_decide_eq_false_2; [done|]. specialize (Hnone w). lia.
  - exfalso. destruct h as [|[n c] h'] eqn:Hh.
    + specialize (Hnone name_id). cbn in Hnone, Hfull. lia.
    + destruct (most_common_first ((n, c) :: h').*1) as (w & ? & ? & _ & Hw' & _);
        [done|]. by rewrite Hw in Hw'.
Qed.

(** A window of [k ≥ 3] observations in which one identity occurs at
    least [k - 1] times: that identity wins, whatever the order of the
    set, and is returned with its mean confidence. *)
Lemma verdict_quorum k h a :
  3 ≤ k → length h = k → k - 1 ≤ py_count a h.*1 →
  verdict k h = Return (Some (a, arithmetic_mean (confidences_of a h))).
Proof.
  intros Hk Hlen Hcount.
  assert (Hne : h ≠ []) by (intros ->; simpl in Hlen; lia).
  destruct (verdict_full k h Hne) as (w & Hw & ->); [lia|].
  assert (w = a) as ->.
  { destruct (decide (w = a)) as [|Hwa]; [done|]. exfalso.
    pose proof (most_common_max _ _ a Hw) as Hmax.
    pose proof (py_count_two w a h.*1 Hwa) as Htwo.
    rewrite length_fmap in Htwo. lia. }
  by rewrite bool_decide_eq_true_2.
Qed.

(** C2. Quorum correctness: a fresh slot is fed [k] observations
    ([k = buffer_threshold], at least the 3 the constructor sets) of
    which at least [k - 1] carry the identity [a].  The first [k - 1]
    calls return nothing, and the call that supplies the [k]-th returns
    [a] with the arithmetic mean of the confidences [a] was observed
    with in these [k] observations. *)
Theorem quorum_at_kth_observation m face_id obs a :
  let k := buffer_threshold (self m) in
  3 ≤ k →
  history face_id m = [] →
  length obs = k →
  k - 1 ≤ py_count a obs.*1 →
  (observe_all (slot_calls face_id obs) m).1 =
    replicate (k - 1) (Return None) ++
    [Return (Some (a, arithmetic_mean (confidences_of a obs)))].
Proof.
  intros k Hk Hfresh Hlen Hcount.
  destruct obs as [|[n c] pre _] using rev_ind; [simpl in Hlen; lia|].
  rewrite length_app in Hlen. cbn [length] in Hlen.
  unfold slot_calls. rewrite fmap_app. fold (slot_calls face_id pre).
  rewrite observe_all_app. cbn [fst].
  destruct (observe_all_short face_id pre m) as [Hsilent Hhist].
  { rewrite Hfresh. fold k. cbn [length]. lia. }
  rewrite Hsilent, Hfresh, app_nil_l in *.
  replace (length pre) with (k - 1) by lia. f_equal.
  pose proof (buffer_threshold_observe_all (slot_calls face_id pre) m) as Hk'.
  destruct (observe_all (slot_calls face_id pre) m) as [rs m1].
  cbn [fst snd] in *. cbn [fmap list_fmap observe_all fst snd].
  rewrite update_recognition_buffer_eq. cbv zeta. cbn [fst]. f_equal.
  rewrite Hhist, Hk'. fold k.
  unfold trim. rewrite bool_decide_eq_false_2
    by (rewrite length_app; cbn [length]; lia).
  apply verdict_quorum; [done| |done].
  rewrite length_app. cbn [length]. lia.
Qed.
End SetOrder.
End SmootherFacts.

(** ** Concrete runs on the float run time *)

Section Runs.
Local Existing Instance float_runtime.

Example format_41 : float_format_1f 41.0%float = "41.0".
Proof. vm_compute. reflexivity. Qed.

Example format_quarter : float_format_1f 0.25%float = "0.2".
Proof. vm_compute. reflexivity. Qed.

(** The end-to-end scenario: Alice, Alice, Bob on one slot gives Alice
    with confidence 41.0 at the third call; recording her appends one row
    and returns [True]; recording her again returns [False] and appends
    nothing. *)
Example scenario_smoother :
  (observe_all (slot_calls "face_0" alice_alice_bob) healthy).1
  = [Return None; Return None; Return (Some ("Alice_001", 41.0%float))].
Proof. vm_compute. reflexivity. Qed.

Example scenario_ledger :
  let m0 := sample_machine float_runtime [ledger_header] None false in
  let '(r1, m1) := record_attendance (rt := float_runtime) "Alice_001" 41.0%float m0 in
  let '(r2, m2) := record_attendance (rt := float_runtime) "Alice_001" 41.0%float m1 in
  r1 = Return true ∧ r2 = Return false ∧
  fs (world m1) !! "attendance.csv" =
    Some [ledger_header; ["2025-04-07"; "08:55:12"; "Alice"; "001"; "41.0"]] ∧
  fs (world m2) = fs (world m1).
Proof. vm_compute. done. Qed.

(** With all counts tied, the winner is whichever the set yields first. *)
Example tie_depends_on_order :
  most_common (rt := float_runtime) ["A"; "B"; "C"] = Return "A" ∧
  most_common (rt := float_runtime_rev) ["A"; "B"; "C"] = Return "C".
Proof. split; reflexivity. Qed.

Lemma float_set_iter_elem (names : list string) (x : string) :
  x ∈ set_iter names ↔ x ∈ names.
Proof. apply elem_of_remove_dups. Qed.

Lemma record_attendance_present_witness :
  "Alice_001" ∈ today_attendance (self (alice_present float_runtime sample_rows None false)) ∧
  record_attendance (rt := float_runtime) "Alice_001" 41.0%float (alice_present float_runtime sample_rows None false)
  = (Return false, alice_present float_runtime sample_rows None false).
Proof.
  assert (Hin : "Alice_001" ∈ today_attendance
                  (self (alice_present float_runtime sample_rows None false)))
    by (by apply elem_of_singleton_2).
  split; [exact Hin | exact (record_attendance_present _ _ _ Hin)].
Defined.

Lemma quorum_at_kth_observation_witness :
  (observe_all (slot_calls "face_0" alice_alice_bob) healthy).1
  = replicate 2 (Return None) ++
    [Return (Some ("Alice_001", arithmetic_mean (confidences_of "Alice_001" alice_alice_bob)))].
Proof.
  apply (quorum_at_kth_observation float_set_iter_elem healthy "face_0"
           alice_alice_bob "Alice_001").
  - vm_compute. lia.
  - reflexivity.
  - reflexivity.
  - vm_compute. lia.
Defined.



(** C4 as stated fails: Alice is in the set, the store cannot be opened,
    and after the reload the set is empty. *)
Lemma load_today_attendance_read_fault_forgets :
  is_Some (fs (world (alice_present float_runtime sample_rows (Some 0) false))
             !! attendance_file (self (alice_present float_runtime sample_rows (Some 0) false))) ∧
  read_fault (world (alice_present float_runtime sample_rows (Some 0) false)) = Some 0 ∧
  today_attendance (self (alice_present float_runtime sample_rows (Some 0) false))
    = {["Alice_001"]} ∧
  today_attendance
    (self (load_today_attendance (alice_present float_runtime sample_rows (Some 0) false)).2)
    = ∅ ∧
  today_attendance
    (self (load_today_attendance (alice_present float_runtime sample_rows (Some 0) false)).2)
    ≠ today_attendance (self (alice_present float_runtime sample_rows (Some 0) false)).
Proof.
  assert (Hload : today_attendance
    (self (load_today_attendance (alice_present float_runtime sample_rows (Some 0) false)).2)
    = ∅) by (vm_compute; reflexivity).
  split_and!.
  - eexists. reflexivity.
  - reflexivity.
  - reflexivity.
  - exact Hload.
  - rewrite Hload. cbn. intros Heq.
    apply (not_elem_of_empty (C := gset string) "Alice_001").
    rewrite Heq. by apply elem_of_singleton_2.
Qed.

Lemma load_today_attendance_read_fault_witness :
  ∃ m',
    load_today_attendance (alice_present float_runtime sample_rows (Some 2) false)
      = (Return (), m') ∧
    today_attendance (self m') =
      list_to_set (today_keys "2025-04-07" (drop 1 (take 2 sample_rows))) ∧
    stdout (world m') = [LoadWarning OSError] ∧
    fs (world m') = {["attendance.csv" := sample_rows]}.
Proof.
  apply (load_today_attendance_read_fault
           (alice_present float_runtime sample_rows (Some 2) false) sample_rows 2).
  - reflexivity.
  - reflexivity.
Defined.

Lemma sub_quorum_silence_witness :
  (update_recognition_buffer "face_0" "Alice_001" 40.0%float healthy).1 = Return None ∧
  (update_recognition_buffer "face_0" "Bob_002" 50.0%float after_two_strangers).1
    = Return None.
Proof.
  split.
  - apply (sub_quorum_silence float_set_iter_elem healthy "face_0" "Alice_001" 40.0%float).
    left. vm_compute. lia.
  - apply (sub_quorum_silence float_set_iter_elem after_two_strangers "face_0"
             "Bob_002" 50.0%float).
    right. intros a.
    change (Z.of_nat (py_count a ["Alice_001"; "Carol_003"; "Bob_002"]) < 3 - 1)%Z.
    unfold py_count. rewrite !filter_cons, filter_nil.
    repeat case_decide; simplify_eq; cbn [length]; lia.
Defined.

Lemma load_today_attendance_reload_witness :
  let t := today_attendance (self (load_today_attendance healthy).2) in
  (∀ k, k ∈ t ↔
     ∃ time name student_id rest,
       "2025-04-07" :: time :: name :: student_id :: rest ∈ drop 1 sample_rows ∧
       k = name +:+ "_" +:+ student_id) ∧
  (∀ keys,
     NoDup keys →
     (∀ k, k ∈ keys ↔
        ∃ time name student_id rest,
          "2025-04-07" :: time :: name :: student_id :: rest ∈ drop 1 sample_rows ∧
          k = name +:+ "_" +:+ student_id) →
     size t = length keys) ∧
  (∀ content',
     filter (dated "2025-04-07") (drop 1 content')
       = filter (dated "2025-04-07") (drop 1 sample_rows) →
     today_attendance
       (self (load_today_attendance (with_rows content' healthy)).2) = t).
Proof.
  apply (load_today_attendance_reload healthy sample_rows).
  - reflexivity.
  - reflexivity.
Defined.

Example reload_sample :
  today_attendance (self (load_today_attendance healthy).2)
  = {["Alice_001"; "Bob_002"]}.
Proof. vm_compute. reflexivity. Qed.

Lemma recognition_buffer_bounded_fifo_witness :
  let m' := (observe_all two_slot_run healthy).2 in
  buffer_threshold (self m') = 3 ∧
  length (history "face_0" m') ≤ 3 ∧
  history "face_0" m' = last_n 3 (slot_observations "face_0" two_slot_run) ∧
  (is_Some (recognition_buffer (self m') !! "face_0") ↔
     slot_observations "face_0" two_slot_run ≠ []).
Proof.
  apply (recognition_buffer_bounded_fifo healthy two_slot_run "face_0").
  reflexivity.
Defined.

Example two_slot_run_history :
  history "face_0" (observe_all two_slot_run healthy).2
  = [("Alice_001", 42.0%float); ("Bob_002", 50.0%float); ("Alice_001", 39.5%float)].
Proof. vm_compute. reflexivity. Qed.

Lemma most_common_first_encountered_witness :
  let r := update_recognition_buffer "face_0" "Bob_002" 50.0%float after_two_strangers in
  let h := history "face_0" r.2 in
  let names := h.*1 in
  ∃ w before after,
    set_iter names = before ++ w :: after ∧
    (∀ x, x ∈ before → py_count x names < py_count w names) ∧
    (∀ x, x ∈ after → py_count x names ≤ py_count w names) ∧
    (∀ x, py_count x names ≤ py_count w names) ∧
    most_common names = Return w ∧
    r.1 = Return (if bool_decide (3 - 1 ≤ py_count w names)
                  then Some (w, arithmetic_mean (confidences_of w h))
                  else None).
Proof.
  apply (most_common_first_encountered float_set_iter_elem after_two_strangers
           "face_0" "Bob_002" 50.0%float).
  - vm_compute. lia.
  - vm_compute. lia.
Defined.

(** On that window all three counts are tied; the first name of the
    enumeration is picked, and since its count is below two nothing is
    returned. *)
Example three_strangers_tie :
  most_common (history "face_0"
    (update_recognition_buffer "face_0" "Bob_002" 50.0%float after_two_strangers).2).*1
    = Return "Alice_001" ∧
  (update_recognition_buffer "face_0" "Bob_002" 50.0%float after_two_strangers).1
    = Return None.
Proof. split; vm_compute; reflexivity. Qed.
End Runs.

(** * Further properties of the code *)

(** ** Codec: what the decoder never does *)

Section CodecMore.
Import Codec.

Lemma contains_sep_split_last_r s a b :
  split_last s = Some (a, b) → contains_sep b = false.
Proof.
  revert a. induction s as [|c r IH]; intros a; simpl; [done|].
  destruct (split_last r) as [[a' b']|] eqn:Hr.
  - intros [= <- <-]. by eapply IH.
  - destruct (Ascii.eqb c sep); [|done]. intros [= <- <-].
    destruct (contains_sep r) eqn:Hc; [|done].
    destruct (split_last_is_Some _ Hc) as [? Hs]. by rewrite Hr in Hs.
Qed.

Lemma parse_name_id_bare key :
  contains_sep key = false → parse_name_id key = (key, default_id).
Proof. intros Hc. unfold parse_name_id, parse_name_id_try. by rewrite Hc. Qed.

Lemma parse_name_id_sep key :
  contains_sep key = true →
  ∃ a b, split_last key = Some (a, b) ∧ parse_name_id key = (a, b).
Proof.
  intros Hc. destruct (split_last_is_Some _ Hc) as [[a b] Hs].
  exists a, b. split; [done|].
  unfold parse_name_id, parse_name_id_try, rsplit1. by rewrite Hc, Hs.
Qed.

Lemma join_parse_sep key :
  contains_sep key = true →
  join_name_id (parse_name_id key).1 (parse_name_id key).2 = key.
Proof.
  intros Hc. destruct (parse_name_id_sep _ Hc) as (a & b & Hs & ->).
  by apply join_split_last.
Qed.

Lemma join_name_id_longer name student_id : join_name_id name student_id ≠ name.
Proof.
  unfold join_name_id. induction name as [|c r IH]; [done|].
  rewrite append_String. intros [= Heq]. by apply IH.
Qed.

(** The student id [parse_name_id] returns never holds a separator, whatever
    the key: it is the text after the last one, or the default ["000"]. *)
Theorem parse_name_id_student_id_clean key :
  contains_sep (parse_name_id key).2 = false.
Proof.
  destruct (contains_sep key) eqn:Hc.
  - destruct (parse_name_id_sep _ Hc) as (a & b & Hs & ->).
    by eapply contains_sep_split_last_r.
  - by rewrite parse_name_id_bare.
Qed.

(** A key without a separator does not survive decoding and re-encoding: it
    decodes like the key with ["_000"] appended, a different key. *)
Theorem parse_name_id_bare_collides key :
  contains_sep key = false →
  parse_name_id (join_name_id key default_id) = parse_name_id key ∧
  join_name_id (parse_name_id key).1 (parse_name_id key).2 = join_name_id key default_id ∧
  join_name_id key default_id ≠ key.
Proof.
  intros Hc. rewrite (parse_name_id_bare _ Hc). split_and!.
  - unfold parse_name_id, parse_name_id_try, rsplit1.
    by rewrite contains_sep_join, split_last_join.
  - done.
  - apply join_name_id_longer.
Qed.

Lemma parse_name_id_bare_collides_witness :
  contains_sep "Alice" = false ∧
  parse_name_id (join_name_id "Alice" default_id) = parse_name_id "Alice" ∧
  join_name_id (parse_name_id "Alice").1 (parse_name_id "Alice").2
    = join_name_id "Alice" default_id ∧
  join_name_id "Alice" default_id ≠ "Alice".
Proof. split; [reflexivity | apply parse_name_id_bare_collides; reflexivity]. Defined.
End CodecMore.

(** ** Ledger: recording and reloading together *)

Section LedgerMore.
Context {rt : Runtime}.
Implicit Types (m : Machine) (rows : list row).

(** The method, as one equation. *)
Lemma record_attendance_eq m name_id confidence :
  record_attendance name_id confidence m =
    if bool_decide (name_id ∈ today_attendance (self m)) then (Return false, m)
    else if append_fault (world m)
    then (Return false, set_stdout (stdout (world m) ++ [RecordError OSError]) m)
    else (Return true, recorded name_id confidence m).
Proof.
  unfold record_attendance, recorded, attendance_row, ledger.
  unfold mbind, M_bind, gets, try_except.
  case_bool_decide; [done|].
  destruct (Codec.parse_name_id name_id) as [name student_id].
  unfold append_row. by destruct (append_fault (world m)).
Qed.

Lemma ledger_recorded name_id confidence m :
  ledger (recorded name_id confidence m)
  = ledger m ++ [attendance_row m name_id confidence].
Proof.
  unfold ledger at 1, recorded.
  cbn [world self set_stdout set_today_attendance set_fs fs attendance_file].
  by rewrite lookup_insert_eq.
Qed.

Lemma today_attendance_recorded name_id confidence m :
  today_attendance (self (recorded name_id confidence m))
  = {[name_id]} ∪ today_attendance (self m).
Proof. reflexivity. Qed.

Lemma lookup_ledger m :
  ledger m ≠ [] → fs (world m) !! attendance_file (self m) = Some (ledger m).
Proof.
  unfold ledger. by destruct (fs (world m) !! attendance_file (self m)).
Qed.

(** The set a reload builds from the rows of the file. *)
Lemma load_today_attendance_readable m rows :
  fs (world m) !! attendance_file (self m) = Some rows →
  read_fault (world m) = None →
  today_attendance (self (load_today_attendance m).2)
  = list_to_set (today_keys (now_date (world m)) (drop 1 rows)).
Proof. intros Hf Hr. by rewrite load_today_attendance_eq, Hf, Hr. Qed.

Lemma today_key_Some_sep today r k :
  today_key today r = Some k → Codec.contains_sep k = true.
Proof.
  destruct r as [|d [|? [|? [|? ?]]]]; simpl; try done.
  case_decide; [|done]. intros [= <-]. apply contains_sep_join.
Qed.

Lemma today_keys_sep today rows k :
  k ∈ today_keys today rows → Codec.contains_sep k = true.
Proof.
  unfold today_keys. rewrite list_elem_of_omap.
  intros (r & _ & Hk). by eapply today_key_Some_sep.
Qed.

Lemma today_key_attendance_row m name_id confidence :
  today_key (now_date (world m)) (attendance_row m name_id confidence)
  = Some (Codec.join_name_id (Codec.parse_name_id name_id).1
            (Codec.parse_name_id name_id).2).
Proof. unfold attendance_row. cbn [today_key]. by rewrite decide_True. Qed.

(** [record_attendance] never raises, whatever the state of the storage; it
    returns [True] exactly when the key was absent and the append went
    through. *)
Theorem record_attendance_never_raises m name_id confidence :
  ∃ b m',
    record_attendance name_id confidence m = (Return b, m') ∧
    (b = true ↔ (name_id ∉ today_attendance (self m)) ∧ append_fault (world m) = false).
Proof.
  rewrite record_attendance_eq. case_bool_decide as Hin.
  - exists false, m. split; [done|]. split; [done|]. by intros [? _].
  - destruct (append_fault (world m)) eqn:Hfault.
    + eexists false, _. split; [done|]. split; [done|]. by intros [_ ?].
    + eexists true, _. done.
Qed.

(** A first recording whose append goes through returns [True], adds the
    given key and no other to the set, prints the line with the decoded
    name and student id and the confidence to one decimal, and leaves every
    file but the attendance file as it was. *)
Theorem record_attendance_success m name_id confidence :
  name_id ∉ today_attendance (self m) →
  append_fault (world m) = false →
  ∃ m',
    record_attendance name_id confidence m = (Return true, m') ∧
    today_attendance (self m') = {[name_id]} ∪ today_attendance (self m) ∧
    (∀ path, path ≠ attendance_file (self m) →
       fs (world m') !! path = fs (world m) !! path) ∧
    stdout (world m') = stdout (world m) ++
      [Recorded (Codec.parse_name_id name_id).1 (Codec.parse_name_id name_id).2
         (format_1f confidence)].
Proof.
  intros Hin Hok. rewrite record_attendance_eq, Hok.
  rewrite bool_decide_eq_false_2 by done.
  eexists. split; [reflexivity|]. split_and!.
  - done.
  - intros path Hpath. unfold recorded.
    cbn [world set_stdout set_today_attendance set_fs fs].
    by rewrite lookup_insert_ne.
  - done.
Qed.

(** With a storage that takes appends, a second call for the same key
    returns [False] and changes nothing, whatever the first call did: at
    most one row per key and session. *)
Theorem record_attendance_twice m name_id c1 c2 :
  append_fault (world m) = false →
  record_attendance name_id c2 (record_attendance name_id c1 m).2
  = (Return false, (record_attendance name_id c1 m).2).
Proof.
  intros Hok. rewrite (record_attendance_eq m), Hok.
  case_bool_decide as Hin; cbn [snd].
  - rewrite record_attendance_eq. by rewrite bool_decide_eq_true_2.
  - rewrite record_attendance_eq. rewrite bool_decide_eq_true_2; [done|].
    rewrite today_attendance_recorded. apply elem_of_union_l.
    by apply elem_of_singleton_2.
Qed.

(** Whatever its outcome, a call removes no key from the set and adds at
    most the given one; it touches no file but the attendance file, and
    leaves the recognition buffer, the threshold and the clock alone. *)
Theorem record_attendance_frame m name_id confidence :
  let m' := (record_attendance name_id confidence m).2 in
  today_attendance (self m) ⊆ today_attendance (self m') ∧
  today_attendance (self m') ⊆ {[name_id]} ∪ today_attendance (self m) ∧
  (∀ path, path ≠ attendance_file (self m) →
     fs (world m') !! path = fs (world m) !! path) ∧
  recognition_buffer (self m') = recognition_buffer (self m) ∧
  buffer_threshold (self m') = buffer_threshold (self m) ∧
  now_date (world m') = now_date (world m) ∧
  now_time (world m') = now_time (world m).
Proof.
  intros m'. unfold m'. rewrite record_attendance_eq.
  case_bool_decide as Hin; cbn [snd].
  - split_and!; try done. apply union_subseteq_r.
  - destruct (append_fault (world m)); cbn [snd].
    + split_and!; try done. apply union_subseteq_r.
    + split_and!; try done.
      * rewrite today_attendance_recorded. apply union_subseteq_r.
      * intros path Hpath. unfold recorded.
        cbn [world set_stdout set_today_attendance set_fs fs].
        by rewrite lookup_insert_ne.
Qed.

(** The world a reload sees after a recording that went through. *)
Lemma load_after_recorded m name_id confidence :
  read_fault (world m) = None →
  today_attendance (self (load_today_attendance (recorded name_id confidence m)).2)
  = list_to_set
      (today_keys (now_date (world m))
         (drop 1 (ledger m ++ [attendance_row m name_id confidence]))).
Proof.
  intros Hr.
  rewrite (load_today_attendance_readable _
             (ledger m ++ [attendance_row m name_id confidence])); [done| |done].
  rewrite <- ledger_recorded. apply lookup_ledger.
  rewrite ledger_recorded. by destruct (ledger m).
Qed.

(** The row written and the key rebuilt agree: when the rows read from the
    store, after its header, include the row [record_attendance] writes for
    a key that holds a separator, a reload on the same day puts that key in
    the set. *)
Theorem reload_finds_recorded_row m0 m name_id confidence content :
  Codec.contains_sep name_id = true →
  fs (world m) !! attendance_file (self m) = Some content →
  read_fault (world m) = None →
  now_date (world m) = now_date (world m0) →
  attendance_row m0 name_id confidence ∈ drop 1 content →
  name_id ∈ today_attendance (self (load_today_attendance m).2).
Proof.
  intros Hsep Hf Hr Hdate Hrow.
  rewrite (load_today_attendance_readable m content) by done.
  rewrite elem_of_list_to_set. unfold today_keys. rewrite list_elem_of_omap.
  exists (attendance_row m0 name_id confidence). split; [done|].
  rewrite Hdate, today_key_attendance_row. by rewrite join_parse_sep.
Qed.

(** Whatever the file holds, every key a reload puts in the set holds a
    separator: a key without one is never found there. *)
Theorem load_today_attendance_keys_have_separator m k :
  k ∈ today_attendance (self (load_today_attendance m).2) →
  Codec.contains_sep k = true.
Proof.
  rewrite load_today_attendance_eq. cbv zeta.
  destruct (fs (world m) !! attendance_file (self m)) as [rows|].
  - destruct (read_fault (world m)); cbn [snd set_stdout set_today_attendance self
      today_attendance]; rewrite elem_of_list_to_set; apply today_keys_sep.
  - cbn. by intros ?%not_elem_of_empty.
Qed.

(** For a key without a separator they do not agree: the row is written
    under the default student id, so when the rows read from the store
    include it, a reload puts the key with ["_000"] appended in the set and
    not the key itself, and recording the key again goes to the file once
    more. *)
Theorem reload_misses_bare_key m0 m name_id c1 c2 content :
  Codec.contains_sep name_id = false →
  fs (world m) !! attendance_file (self m) = Some content →
  read_fault (world m) = None →
  now_date (world m) = now_date (world m0) →
  attendance_row m0 name_id c1 ∈ drop 1 content →
  append_fault (world m) = false →
  let m2 := (load_today_attendance m).2 in
  (name_id ∉ today_attendance (self m2)) ∧
  name_id +:+ "_000" ∈ today_attendance (self m2) ∧
  (record_attendance name_id c2 m2).1 = Return true.
Proof.
  intros Hbare Hf Hr Hdate Hrow Hok m2.
  assert (Ht : today_attendance (self m2)
               = list_to_set (today_keys (now_date (world m)) (drop 1 content))).
  { unfold m2. by apply load_today_attendance_readable. }
  assert (Hout : name_id ∉ today_attendance (self m2)).
  { rewrite Ht, elem_of_list_to_set. intros Hk%today_keys_sep. congruence. }
  split_and!; [done| |].
  - rewrite Ht, elem_of_list_to_set. unfold today_keys. rewrite list_elem_of_omap.
    exists (attendance_row m0 name_id c1). split; [done|].
    rewrite Hdate, today_key_attendance_row. by rewrite parse_name_id_bare.
  - rewrite record_attendance_eq. rewrite bool_decide_eq_false_2 by done.
    replace (append_fault (world m2)) with false; [done|].
    unfold m2. rewrite load_today_attendance_eq, Hf, Hr. by cbv zeta.
Qed.

(** Recording when the attendance file is absent creates it without a
    header, so the next reload takes the row for the header and skips it:
    the set comes back empty. *)
Theorem record_without_ledger_lost_on_reload m name_id confidence :
  fs (world m) !! attendance_file (self m) = None →
  name_id ∉ today_attendance (self m) →
  append_fault (world m) = false →
  read_fault (world m) = None →
  let m1 := (record_attendance name_id confidence m).2 in
  ledger m1 = [attendance_row m name_id confidence] ∧
  name_id ∈ today_attendance (self m1) ∧
  today_attendance (self (load_today_attendance m1).2) = ∅.
Proof.
  intros Hnone Hin Hok Hr m1. unfold m1.
  rewrite record_attendance_eq, Hok. rewrite bool_decide_eq_false_2 by done.
  cbn [snd].
  assert (Hl : ledger m = []) by (unfold ledger; by rewrite Hnone).
  split_and!.
  - by rewrite ledger_recorded, Hl.
  - rewrite today_attendance_recorded. apply elem_of_union_l.
    by apply elem_of_singleton_2.
  - rewrite load_after_recorded, Hl by done. reflexivity.
Qed.

(** A reload never raises and only reads: the files and the recognition
    buffer are what they were; with no attendance file the set comes back
    empty and nothing is printed. *)
Theorem load_today_attendance_never_raises m :
  ∃ m',
    load_today_attendance m = (Return (), m') ∧
    fs (world m') = fs (world m) ∧
    recognition_buffer (self m') = recognition_buffer (self m) ∧
    (fs (world m) !! attendance_file (self m) = None →
       today_attendance (self m') = ∅ ∧ stdout (world m') = stdout (world m)).
Proof.
  rewrite load_today_attendance_eq. cbv zeta.
  destruct (fs (world m) !! attendance_file (self m)) as [rows|].
  - destruct (read_fault (world m)); eexists; (split; [reflexivity|]); done.
  - eexists. split; [reflexivity|]. done.
Qed.

(** Reloading twice in a row gives the set of the first reload. *)
Theorem load_today_attendance_idempotent m :
  today_attendance (self (load_today_attendance (load_today_attendance m).2).2)
  = today_attendance (self (load_today_attendance m).2).
Proof.
  rewrite (load_today_attendance_eq (load_today_attendance m).2).
  rewrite (load_today_attendance_eq m). cbv zeta.
  destruct (fs (world m) !! attendance_file (self m)) as [rows|] eqn:Hf.
  - destruct (read_fault (world m)) as [n|] eqn:Hr;
      cbn [snd world self set_stdout set_today_attendance fs attendance_file
           read_fault now_date today_attendance];
      by rewrite Hf, Hr.
  - cbn [snd world self set_today_attendance fs attendance_file]. by rewrite Hf.
Qed.
End LedgerMore.

(** ** Set-up of the attendance file and the summary *)

Section SessionFacts.
Context {rt : Runtime}.
Implicit Types (m : Machine).

(** An attendance file that exists is never rewritten, whether or not a
    creation would have gone through: its rows stay and nothing raises. *)
Theorem setup_attendance_file_keeps_existing m create_fault :
  is_Some (fs (world m) !! attendance_file (self m)) →
  setup_attendance_file create_fault m = (Return (), m).
Proof.
  intros Hex. unfold setup_attendance_file, mbind, M_bind, gets, attendance_file_exists.
  by rewrite bool_decide_eq_true_2.
Qed.


(** *** The summary *)

Lemma summary_entries_length start keys :
  length (summary_entries start keys) = length keys.
Proof.
  revert start. induction keys as [|k keys IH]; intros start; [done|].
  cbn [summary_entries]. destruct (Codec.parse_name_id k). cbn [length].
  by rewrite IH.
Qed.

Lemma summary_entries_lookup start keys i k :
  keys !! i = Some k →
  summary_entries start keys !! i
  = Some (SummaryEntry (start + i) (Codec.parse_name_id k).1 (Codec.parse_name_id k).2).
Proof.
  revert start i. induction keys as [|k' keys IH]; intros start i; [done|].
  cbn [summary_entries]. destruct i as [|i].
  - intros [= ->]. destruct (Codec.parse_name_id k). by rewrite Nat.add_0_r.
  - intros Hk. destruct (Codec.parse_name_id k').
    etrans; [exact (IH (S start) i Hk)|]. do 2 f_equal. lia.
Qed.

(** The summary of a non-empty set lists every member once, in ascending
    order of the keys, numbered from 1 and decoded, between the title and a
    total that is the number of entries; it is a function of the set alone. *)
Theorem show_attendance_summary_lists_members m :
  today_attendance (self m) ≠ ∅ →
  ∃ keys,
    StronglySorted String.le keys ∧
    NoDup keys ∧
    (∀ k, k ∈ keys ↔ k ∈ today_attendance (self m)) ∧
    length keys = size (today_attendance (self m)) ∧
    show_attendance_summary m =
      [SummaryRule; SummaryTitle; SummaryRule] ++ summary_entries 1 keys ++
      [SummaryRule; SummaryTotal (length keys)] ∧
    ∀ i k, keys !! i = Some k →
      summary_entries 1 keys !! i
      = Some (SummaryEntry (S i) (Codec.parse_name_id k).1 (Codec.parse_name_id k).2).
Proof.
  intros Hne. exists (sorted_attendance m).
  assert (Hperm : sorted_attendance m ≡ₚ elements (today_attendance (self m)))
    by apply merge_sort_Permutation.
  assert (Hlen : length (sorted_attendance m) = size (today_attendance (self m))).
  { by rewrite Hperm. }
  split_and!.
  - apply (StronglySorted_merge_sort _).
  - rewrite Hperm. apply NoDup_elements.
  - intros k. rewrite Hperm. apply elem_of_elements.
  - done.
  - unfold show_attendance_summary. rewrite bool_decide_eq_false_2 by done.
    by rewrite Hlen.
  - intros i k Hk. by rewrite (summary_entries_lookup 1 _ i k Hk).
Qed.

(** With nobody recorded the summary is the title, the line saying so and
    a total of zero. *)
Theorem show_attendance_summary_nobody m :
  today_attendance (self m) = ∅ →
  show_attendance_summary m =
    [SummaryRule; SummaryTitle; SummaryRule; SummaryNobody; SummaryRule; SummaryTotal 0].
Proof.
  intros He. unfold show_attendance_summary.
  rewrite bool_decide_eq_true_2 by done. by rewrite He, size_empty.
Qed.
End SessionFacts.

(** ** Smoother: what a call changes and what it can return *)

Section SmootherMore.
Context {rt : Runtime}.
Implicit Types (m : Machine) (h : list (string * conf)).

(** A call touches the history of its own slot and nothing else: the other
    slots, the threshold, the attendance set and the world are unchanged. *)
Theorem update_recognition_buffer_frame m face_id name_id confidence :
  let m' := (update_recognition_buffer face_id name_id confidence m).2 in
  world m' = world m ∧
  today_attendance (self m') = today_attendance (self m) ∧
  attendance_file (self m') = attendance_file (self m) ∧
  buffer_threshold (self m') = buffer_threshold (self m) ∧
  is_Some (recognition_buffer (self m') !! face_id) ∧
  ∀ face, face ≠ face_id →
    recognition_buffer (self m') !! face = recognition_buffer (self m) !! face.
Proof.
  intros m'. unfold m'. rewrite update_recognition_buffer_eq. cbv zeta. cbn [snd].
  split_and!; try done.
  - rewrite recognition_buffer_set, lookup_insert_eq. by eexists.
  - intros face Hne. rewrite recognition_buffer_set. by rewrite lookup_insert_ne.
Qed.

Lemma update_result m face_id name_id confidence :
  (update_recognition_buffer face_id name_id confidence m).1
  = verdict (buffer_threshold (self m))
      (history face_id (update_recognition_buffer face_id name_id confidence m).2).
Proof.
  rewrite history_update, decide_True by done.
  by rewrite update_recognition_buffer_eq.
Qed.

Lemma trim_nonempty k h x : 1 ≤ k → trim k (h ++ [x]) ≠ [].
Proof.
  intros Hk. unfold trim. case_bool_decide as Hlt.
  - intros Hnil. apply (f_equal length) in Hnil.
    rewrite length_drop in Hnil. cbn [length] in Hnil. lia.
  - by destruct h.
Qed.

Lemma returned_count m face_id name_id confidence w c :
  (update_recognition_buffer face_id name_id confidence m).1 = Return (Some (w, c)) →
  buffer_threshold (self m) - 1 ≤
    py_count w (history face_id
                  (update_recognition_buffer face_id name_id confidence m).2).*1.
Proof.
  rewrite update_result. set (h := history _ _). unfold verdict.
  case_bool_decide as Hfull; [|done].
  destruct (most_common h.*1) as [w'|] eqn:Hw; [|done].
  case_bool_decide as Hcount; [|done].
  destruct (avg_confidence h w'); [|done]. intros [= <- _]. lia.
Qed.

Section Order.
Hypothesis set_iter_elem : ∀ names x, x ∈ set_iter names ↔ x ∈ names.

(** With a threshold of at least one, a call never raises: the maximum is
    taken over a non-empty set and the count divided by is not zero. *)
Theorem update_recognition_buffer_never_raises m face_id name_id confidence :
  1 ≤ buffer_threshold (self m) →
  ∃ v, (update_recognition_buffer face_id name_id confidence m).1 = Return v.
Proof.
  intros Hk. rewrite update_result, history_update, decide_True by done.
  set (h := trim _ _).
  destruct (decide (buffer_threshold (self m) ≤ length h)) as [Hfull|Hshort].
  - destruct (verdict_full set_iter_elem (buffer_threshold (self m)) h)
      as (w & _ & ->); [by apply trim_nonempty|done|]. by eexists.
  - exists None. unfold verdict. by rewrite bool_decide_eq_false_2.
Qed.

(** What a returned identity stands for: the window is full, the identity
    occurs in it at least [buffer_threshold - 1] times and no identity
    occurs more often, and the confidence returned is the mean of the
    confidences that identity was observed with in the window. *)
Theorem update_recognition_buffer_returned_sound m face_id name_id confidence w c :
  (update_recognition_buffer face_id name_id confidence m).1 = Return (Some (w, c)) →
  let h := history face_id (update_recognition_buffer face_id name_id confidence m).2 in
  buffer_threshold (self m) ≤ length h ∧
  w ∈ h.*1 ∧
  buffer_threshold (self m) - 1 ≤ py_count w h.*1 ∧
  (∀ x, py_count x h.*1 ≤ py_count w h.*1) ∧
  c = arithmetic_mean (confidences_of w h).
Proof.
  rewrite update_result. intros Hv h. fold h in Hv. unfold verdict in Hv.
  case_bool_decide as Hfull; [|done].
  destruct (most_common h.*1) as [w'|] eqn:Hw; [|done].
  case_bool_decide as Hcount; [|done].
  pose proof (most_common_elem set_iter_elem _ _ Hw) as Hin.
  rewrite (avg_confidence_mean h w' Hin) in Hv. injection Hv as <- <-.
  split_and!; [done|done|lia| |done].
  intros x. by apply most_common_max.
Qed.

(** With the threshold of the constructor or a larger one, and a history
    within its bound, the identity returned is the only one that reaches
    [buffer_threshold - 1] occurrences: the result does not depend on the
    order in which the set is iterated. *)
Theorem update_recognition_buffer_returned_unique m face_id name_id confidence w c a :
  3 ≤ buffer_threshold (self m) →
  length (history face_id m) ≤ buffer_threshold (self m) →
  (update_recognition_buffer face_id name_id confidence m).1 = Return (Some (w, c)) →
  buffer_threshold (self m) - 1 ≤
    py_count a (history face_id
                  (update_recognition_buffer face_id name_id confidence m).2).*1 →
  a = w.
Proof.
  intros Hk Hlen Hv Ha.
  pose proof (returned_count m face_id name_id confidence w c Hv) as Hw.
  destruct (decide (a = w)) as [|Hne]; [done|]. exfalso.
  rewrite history_update, decide_True in Ha, Hw by done.
  pose proof (trim_length (buffer_threshold (self m)) (history face_id m)
                (name_id, confidence) Hlen) as Hbound.
  set (h := trim _ _) in *.
  pose proof (py_count_two a w h.*1 Hne) as Htwo. rewrite length_fmap in Htwo.
  lia.
Qed.

(** The quorum on a sliding window: whatever the slot saw before, once its
    history after a call holds [buffer_threshold] observations (3 or more)
    with at least [buffer_threshold - 1] of one identity, the call returns
    that identity with its mean confidence. *)
Theorem update_recognition_buffer_sliding_quorum m face_id name_id confidence a :
  let h := history face_id (update_recognition_buffer face_id name_id confidence m).2 in
  3 ≤ buffer_threshold (self m) →
  length h = buffer_threshold (self m) →
  buffer_threshold (self m) - 1 ≤ py_count a h.*1 →
  (update_recognition_buffer face_id name_id confidence m).1
  = Return (Some (a, arithmetic_mean (confidences_of a h))).
Proof.
  intros h Hk Hlen Hcount. rewrite update_result. fold h.
  by apply verdict_quorum.
Qed.
End Order.
End SmootherMore.

(** ** The main loop: what a frame can do to the set and the file *)

Section LoopFacts.
Context {rt : Runtime} {cmp : Comparison rt}.
Implicit Types (m : Machine) (label_map : gmap Z string).

Lemma session_grows_refl m : session_grows m m.
Proof. unfold session_grows. by split. Qed.

Lemma session_grows_trans m1 m2 m3 :
  session_grows m1 m2 → session_grows m2 m3 → session_grows m1 m3.
Proof.
  intros [Hs1 Hk1] [Hs2 Hk2]. split.
  - by etrans.
  - intros k Hk3 Hk0. destruct (decide (k ∈ today_attendance (self m2))); eauto.
Qed.

Lemma session_grows_update m face_id name_id confidence :
  session_grows m (update_recognition_buffer face_id name_id confidence m).2.
Proof.
  rewrite update_recognition_buffer_eq. cbv zeta. cbn [snd].
  unfold session_grows. by split.
Qed.

Lemma session_grows_record m name_id confidence :
  name_id ≠ "" → name_id ≠ unknown_key →
  session_grows m (record_attendance name_id confidence m).2.
Proof.
  intros Hne Hunk. rewrite record_attendance_eq.
  case_bool_decide as Hin; [apply session_grows_refl|].
  destruct (append_fault (world m)); cbn [snd].
  - unfold session_grows. by split.
  - unfold session_grows. rewrite today_attendance_recorded. split.
    + apply union_subseteq_r.
    + intros k [Hk%elem_of_singleton|Hk]%elem_of_union Hout; [by subst|done].
Qed.

Lemma record_attendance_Return m name_id confidence :
  ∃ b m', record_attendance name_id confidence m = (Return b, m').
Proof.
  rewrite record_attendance_eq. case_bool_decide; [by eexists _, _|].
  destruct (append_fault (world m)); by eexists _, _.
Qed.

(** One face, as one equation: the smoother is fed, its answer is recorded
    when it names somebody, and the flag says whether the raw identity is
    in the set afterwards. *)
Lemma process_face_eq label_map i label confidence m :
  process_face label_map i label confidence m =
    let name_id :=
      observed_name_id label_map (confidence_threshold (self m)) label confidence in
    match update_recognition_buffer (face_slot i) name_id confidence m with
    | (Raise e, m1) => (Raise e, m1)
    | (Return stable, m1) =>
        let m2 :=
          match stable with
          | Some (stable_name_id, stable_confidence) =>
              if recordable stable
              then (record_attendance stable_name_id stable_confidence m1).2
              else m1
          | None => m1
          end in
        (Return (bool_decide (name_id ∈ today_attendance (self m2))), m2)
    end.
Proof.
  unfold process_face, mbind, M_bind, gets, mret, M_ret. cbv zeta.
  destruct (update_recognition_buffer _ _ _ m) as [[stable|e] m1]; [|done].
  destruct stable as [[k sc]|]; [|done].
  destruct (recordable (Some (k, sc))); [|done].
  destruct (record_attendance_Return m1 k sc) as (b & m' & ->). done.
Qed.

Lemma recordable_Some k c :
  recordable (Some (k, c)) = true → k ≠ "" ∧ k ≠ unknown_key.
Proof.
  unfold recordable. intros [H1 H2]%andb_prop.
  by apply bool_decide_eq_true in H1, H2.
Qed.

Lemma session_grows_process_face label_map i label confidence m :
  session_grows m (process_face label_map i label confidence m).2.
Proof.
  rewrite process_face_eq. cbv zeta.
  pose proof (session_grows_update m (face_slot i)
    (observed_name_id label_map (confidence_threshold (self m)) label confidence)
    confidence) as Hu.
  destruct (update_recognition_buffer _ _ _ m) as [[stable|e] m1]; [|done].
  cbn [snd] in *. destruct stable as [[k sc]|]; [|done].
  destruct (recordable (Some (k, sc))) eqn:Hrec; [|done].
  apply recordable_Some in Hrec as [? ?].
  eapply session_grows_trans; [done|]. by apply session_grows_record.
Qed.

Lemma session_grows_process_faces label_map predictions i m :
  session_grows m (process_faces label_map i predictions m).2.
Proof.
  revert i m. induction predictions as [|[label c] rest IH]; intros i m.
  - apply session_grows_refl.
  - cbn [process_faces]. unfold mbind, M_bind.
    pose proof (session_grows_process_face label_map i label c m) as Hface.
    destruct (process_face label_map i label c m) as [[b|e] m1]; [|done].
    eapply session_grows_trans; [done|]. apply IH.
Qed.

(** One face can add a key to the set only if the smoother returned that
    key for the face's slot at this very call, and the key is neither empty
    nor the unknown key. *)
Theorem process_face_records_only_stable label_map i label confidence m k :
  k ∈ today_attendance (self (process_face label_map i label confidence m).2) →
  k ∈ today_attendance (self m) ∨
  (k ≠ "" ∧ k ≠ unknown_key ∧
   ∃ c, (update_recognition_buffer (face_slot i)
           (observed_name_id label_map (confidence_threshold (self m)) label confidence)
           confidence m).1 = Return (Some (k, c))).
Proof.
  rewrite process_face_eq. cbv zeta.
  pose proof (update_recognition_buffer_eq m (face_slot i)
    (observed_name_id label_map (confidence_threshold (self m)) label confidence)
    confidence) as Hu.
  destruct (update_recognition_buffer _ _ _ m) as [r m1].
  cbv zeta in Hu. injection Hu as _ ->.
  destruct r as [stable|e]; [|by left].
  destruct stable as [[k' sc]|]; [|by left].
  destruct (recordable (Some (k', sc))) eqn:Hrec; [|by left].
  apply recordable_Some in Hrec as [? ?]. cbn [snd fst].
  rewrite record_attendance_eq. case_bool_decide as Hin; [by left|].
  destruct (append_fault _); cbn [snd]; [by left|].
  rewrite today_attendance_recorded.
  intros [Hk%elem_of_singleton|Hk]%elem_of_union; [|by left].
  subst k'. right. eauto.
Qed.

(** A face whose confidence is over the threshold, or whose label is not in
    the label map, enters the history of its slot under the unknown key. *)
Theorem process_face_unrecognised label_map i label confidence m :
  conf_gt confidence (confidence_threshold (self m)) = true ∨ label_map !! label = None →
  history (face_slot i) (process_face label_map i label confidence m).2
  = trim (buffer_threshold (self m))
      (history (face_slot i) m ++ [(unknown_key, confidence)]).
Proof.
  intros Hun.
  assert (Hname : observed_name_id label_map (confidence_threshold (self m)) label
                    confidence = unknown_key).
  { unfold observed_name_id. destruct Hun as [->| ->]; [done|].
    by destruct (conf_gt _ _). }
  rewrite process_face_eq. cbv zeta. rewrite Hname.
  pose proof (history_update m (face_slot i) unknown_key confidence (face_slot i)) as Hh.
  rewrite decide_True in Hh by done.
  destruct (update_recognition_buffer _ _ _ m) as [[stable|e] m1]; [|done].
  cbn [snd] in *. destruct stable as [[k sc]|]; [|done].
  destruct (recordable (Some (k, sc))); [|done].
  rewrite record_attendance_eq. case_bool_decide; [done|].
  by destruct (append_fault _).
Qed.

(** Over the loop on the faces of one frame the attendance set only
    grows, and never by the empty or the unknown key. *)
Theorem process_frame_grows label_map predictions m :
  let m' := (process_frame label_map predictions m).2 in
  today_attendance (self m) ⊆ today_attendance (self m') ∧
  ∀ k, k ∈ today_attendance (self m') → k ∉ today_attendance (self m) →
       k ≠ "" ∧ k ≠ unknown_key.
Proof.
  intros m'. apply (session_grows_process_faces label_map predictions 0 m).
Qed.
End LoopFacts.

(** ** Training: the labels handed to the recogniser *)

Section TrainingFacts.
Context {image : Type}.
Implicit Types (t : @Training image) (entries : list (@entry image)).

Lemma add_images_spec label (files : list (option image))
    (fl : list image * list nat) :
  add_images label files fl =
    (fl.1 ++ readable files, fl.2 ++ replicate (length (readable files)) label).
Proof.
  unfold readable. revert fl. induction files as [|[img|] files IH]; intros [fs ls].
  - cbn. by rewrite !app_nil_r.
  - cbn [add_images omap list_omap]. rewrite IH. cbn [fst snd length replicate].
    by rewrite <- !app_assoc.
  - cbn [add_images omap list_omap]. by rewrite IH.
Qed.

Lemma labelled_add_person names t e :
  labelled names t → labelled (names ++ person_names [e]) (add_person t e).
Proof.
  intros (Hcount & Hmap & Hlen & Hbound & Hsorted).
  destruct e as [name [files|]]; unfold add_person, person_names;
    cbn [fst snd omap list_omap].
  - unfold labelled. rewrite add_images_spec.
    cbn [fst snd faces labels label_map label_count].
    split_and!.
    + rewrite length_app. cbn. lia.
    + intros i. destruct (decide (i = label_count t)) as [->|Hne].
      * rewrite lookup_insert_eq, Hcount. by rewrite list_lookup_middle.
      * rewrite lookup_insert_ne by done. rewrite Hmap.
        destruct (decide (i < length names)).
        -- by rewrite lookup_app_l.
        -- rewrite !lookup_ge_None_2; [done| |lia].
           rewrite length_app. cbn. lia.
    + rewrite !length_app, length_replicate. lia.
    + apply Forall_app. split.
      * eapply Forall_impl; [done|]. intros; cbn in *; lia.
      * apply Forall_replicate. lia.
    + apply StronglySorted_app_2; [|done|].
      * intros x y Hx [-> _]%elem_of_replicate.
        rewrite Forall_forall in Hbound. specialize (Hbound x Hx). lia.
      * induction (length (readable files)) as [|n IHn]; cbn [replicate];
          constructor; [done|]. by apply Forall_replicate.
  - by rewrite app_nil_r.
Qed.

Lemma labelled_fold entries names t :
  labelled names t →
  labelled (names ++ person_names entries) (fold_left add_person entries t).
Proof.
  revert names t. induction entries as [|e entries IH]; intros names t Ht.
  - by rewrite app_nil_r.
  - cbn [fold_left].
    replace (person_names (e :: entries))
      with (person_names [e] ++ person_names entries)
      by (unfold person_names; by rewrite <- omap_app).
    rewrite app_assoc. apply IH. by apply labelled_add_person.
Qed.

Lemma labelled_collect entries : labelled (person_names entries) (collect entries).
Proof.
  apply (labelled_fold entries [] training_start).
  unfold labelled. cbn. split_and!; try done; constructor.
Qed.

(** The label map numbers the directories of the listing from 0, without
    gaps, in listing order; entries that are not directories take no label. *)
Theorem collect_label_map_dense entries :
  label_count (collect entries) = length (person_names entries) ∧
  ∀ i, label_map (collect entries) !! i = person_names entries !! i.
Proof. by destruct (labelled_collect entries) as (? & ? & _). Qed.

(** Faces and labels stay aligned: one label per image that could be read,
    every label is a key of the label map, and the labels are in ascending
    order. *)
Theorem collect_labels_aligned entries :
  length (faces (collect entries)) = length (labels (collect entries)) ∧
  (∀ l, l ∈ labels (collect entries) → is_Some (label_map (collect entries) !! l)) ∧
  StronglySorted le (labels (collect entries)).
Proof.
  destruct (labelled_collect entries) as (Hcount & Hmap & Hlen & Hbound & Hsorted).
  split_and!; [done| |done].
  intros l Hl. rewrite Forall_forall in Hbound. specialize (Hbound l Hl).
  rewrite Hmap. apply lookup_lt_is_Some. lia.
Qed.
End TrainingFacts.

(** ** Concrete runs for the further properties *)

Section MoreRuns.
Local Existing Instance float_runtime.

Lemma record_attendance_success_witness :
  ∃ m',
    record_attendance (rt := float_runtime) "Carol_003" 38.25%float healthy
      = (Return true, m') ∧
    today_attendance (self m') = {["Carol_003"]} ∪ ∅ ∧
    (∀ path, path ≠ "attendance.csv" →
       fs (world m') !! path = fs (world healthy) !! path) ∧
    stdout (world m') = [] ++ [Recorded "Carol" "003" "38.2"].
Proof.
  apply (record_attendance_success healthy "Carol_003" 38.25%float).
  - apply not_elem_of_empty.
  - reflexivity.
Defined.

Lemma record_attendance_twice_witness :
  record_attendance (rt := float_runtime) "Carol_003" 40.0%float
    (record_attendance (rt := float_runtime) "Carol_003" 38.25%float healthy).2
  = (Return false,
     (record_attendance (rt := float_runtime) "Carol_003" 38.25%float healthy).2).
Proof. apply (record_attendance_twice healthy). reflexivity. Defined.

Lemma reload_finds_recorded_row_witness :
  "Carol_003" ∈ today_attendance
    (self (load_today_attendance
             (sample_machine float_runtime rows_with_carol None false)).2).
Proof.
  apply (reload_finds_recorded_row healthy
           (sample_machine float_runtime rows_with_carol None false)
           "Carol_003" 38.25%float rows_with_carol).
  - reflexivity.
  - reflexivity.
  - reflexivity.
  - reflexivity.
  - apply list_elem_of_In. vm_compute. do 5 right. left. reflexivity.
Defined.

Lemma load_today_attendance_keys_have_separator_witness :
  Codec.contains_sep "Alice_001" = true.
Proof.
  apply (load_today_attendance_keys_have_separator healthy "Alice_001").
  rewrite load_today_attendance_readable with (rows := sample_rows) by reflexivity.
  apply elem_of_list_to_set. vm_compute. left.
Defined.

Lemma reload_misses_bare_key_witness :
  ("Dave" ∉ today_attendance
     (self (load_today_attendance
              (sample_machine float_runtime rows_with_dave None false)).2)) ∧
  "Dave" +:+ "_000" ∈ today_attendance
     (self (load_today_attendance
              (sample_machine float_runtime rows_with_dave None false)).2) ∧
  (record_attendance (rt := float_runtime) "Dave" 45.0%float
     (load_today_attendance
        (sample_machine float_runtime rows_with_dave None false)).2).1
  = Return true.
Proof.
  apply (reload_misses_bare_key healthy
           (sample_machine float_runtime rows_with_dave None false)
           "Dave" 44.0%float 45.0%float rows_with_dave).
  - reflexivity.
  - reflexivity.
  - reflexivity.
  - reflexivity.
  - apply list_elem_of_In. vm_compute. do 5 right. left. reflexivity.
  - reflexivity.
Defined.

Lemma record_without_ledger_lost_on_reload_witness :
  ledger (record_attendance (rt := float_runtime) "Carol_003" 38.25%float no_ledger).2
    = [attendance_row no_ledger "Carol_003" 38.25%float] ∧
  "Carol_003" ∈ today_attendance
    (self (record_attendance (rt := float_runtime) "Carol_003" 38.25%float no_ledger).2) ∧
  today_attendance
    (self (load_today_attendance
             (record_attendance (rt := float_runtime) "Carol_003" 38.25%float
                no_ledger).2).2) = ∅.
Proof.
  apply (record_without_ledger_lost_on_reload no_ledger "Carol_003" 38.25%float).
  - reflexivity.
  - apply not_elem_of_empty.
  - reflexivity.
  - reflexivity.
Defined.

Lemma setup_attendance_file_keeps_existing_witness :
  setup_attendance_file false healthy = (Return (), healthy) ∧
  setup_attendance_file true healthy = (Return (), healthy).
Proof.
  split; apply setup_attendance_file_keeps_existing; by eexists.
Defined.


(** The comparison is exact on both sides of the float range. *)
Example float_gt_Z_samples :
  float_gt_Z 130.0%float 100 = true ∧
  float_gt_Z 100.0%float 100 = false ∧
  float_gt_Z 100.5%float 100 = true ∧
  float_gt_Z (-1.5)%float (-2) = true ∧
  float_gt_Z 1.0%float (2 ^ 63) = false ∧
  float_gt_Z 1e19%float (2 ^ 63) = true.
Proof. vm_compute. done. Qed.

Example summary_of_two :
  show_attendance_summary alice_listed =
    [SummaryRule; SummaryTitle; SummaryRule;
     SummaryEntry 1 "Alice" "001"; SummaryEntry 2 "Bob" "002";
     SummaryRule; SummaryTotal 2].
Proof. vm_compute. reflexivity. Qed.

Lemma show_attendance_summary_lists_members_witness :
  ∃ keys,
    StronglySorted String.le keys ∧
    NoDup keys ∧
    (∀ k, k ∈ keys ↔ k ∈ today_attendance (self alice_listed)) ∧
    length keys = size (today_attendance (self alice_listed)) ∧
    show_attendance_summary alice_listed =
      [SummaryRule; SummaryTitle; SummaryRule] ++ summary_entries 1 keys ++
      [SummaryRule; SummaryTotal (length keys)] ∧
    ∀ i k, keys !! i = Some k →
      summary_entries 1 keys !! i
      = Some (SummaryEntry (S i) (Codec.parse_name_id k).1 (Codec.parse_name_id k).2).
Proof.
  apply (show_attendance_summary_lists_members alice_listed).
  intros Hempty.
  assert (Hin : "Alice_001" ∈ today_attendance (self alice_listed)).
  { change ("Alice_001" ∈ ({["Bob_002"; "Alice_001"]} : gset string)).
    apply elem_of_union_r. by apply elem_of_singleton_2. }
  rewrite Hempty in Hin. by apply not_elem_of_empty in Hin.
Defined.

Lemma update_recognition_buffer_never_raises_witness :
  ∃ v, (update_recognition_buffer "face_0" "Alice_001" 40.0%float healthy).1 = Return v.
Proof.
  apply (update_recognition_buffer_never_raises float_set_iter_elem healthy).
  vm_compute. lia.
Defined.

Lemma update_recognition_buffer_returned_sound_witness :
  let h := history "face_0"
             (update_recognition_buffer "face_0" "Bob_002" 50.0%float after_two_alice).2 in
  3 ≤ length h ∧
  "Alice_001" ∈ h.*1 ∧
  3 - 1 ≤ py_count "Alice_001" h.*1 ∧
  (∀ x, py_count x h.*1 ≤ py_count "Alice_001" h.*1) ∧
  41.0%float = arithmetic_mean (confidences_of "Alice_001" h).
Proof.
  apply (update_recognition_buffer_returned_sound float_set_iter_elem after_two_alice
           "face_0" "Bob_002" 50.0%float "Alice_001" 41.0%float).
  vm_compute. reflexivity.
Defined.

Lemma update_recognition_buffer_returned_unique_witness : "Alice_001" = "Alice_001".
Proof.
  apply (update_recognition_buffer_returned_unique after_two_alice
           "face_0" "Bob_002" 50.0%float "Alice_001" 41.0%float "Alice_001").
  - vm_compute. lia.
  - vm_compute. lia.
  - vm_compute. reflexivity.
  - vm_compute. lia.
Defined.

Lemma update_recognition_buffer_sliding_quorum_witness :
  (update_recognition_buffer "face_0" "Alice_001" 41.0%float after_two_slot_run).1
  = Return (Some ("Alice_001",
      arithmetic_mean (confidences_of "Alice_001"
        (history "face_0"
           (update_recognition_buffer "face_0" "Alice_001" 41.0%float
              after_two_slot_run).2)))).
Proof.
  apply (update_recognition_buffer_sliding_quorum float_set_iter_elem after_two_slot_run
           "face_0" "Alice_001" 41.0%float "Alice_001").
  - vm_compute. lia.
  - vm_compute. reflexivity.
  - vm_compute. lia.
Defined.

Example sliding_quorum_value :
  (update_recognition_buffer "face_0" "Alice_001" 41.0%float after_two_slot_run).1
  = Return (Some ("Alice_001", 40.25%float)).
Proof. vm_compute. reflexivity. Qed.

(** A third sighting of Alice on slot 0 records her; the face of an unknown
    label on the same slot does not. *)
Example process_face_records :
  ledger (process_face (rt := float_runtime) sample_label_map 0 0 45.0%float after_two_alice).2
  = [ledger_header; ["2025-04-07"; "08:55:12"; "Alice"; "001"; "42.3"]] ∧
  (process_face (rt := float_runtime) sample_label_map 0 0 45.0%float after_two_alice).1 = Return true.
Proof. vm_compute. done. Qed.

Lemma process_face_records_only_stable_witness :
  "Alice_001" ∈ today_attendance (self after_two_alice) ∨
  ("Alice_001" ≠ "" ∧ "Alice_001" ≠ unknown_key ∧
   ∃ c, (update_recognition_buffer (face_slot 0)
           (observed_name_id (rt := float_runtime) sample_label_map
              (confidence_threshold (self after_two_alice)) 0 45.0%float)
           45.0%float after_two_alice).1 = Return (Some ("Alice_001", c))).
Proof.
  apply (process_face_records_only_stable (rt := float_runtime) sample_label_map 0 0 45.0%float
           after_two_alice "Alice_001").
  apply (bool_decide_unpack _). vm_compute. exact I.
Defined.

Lemma process_face_unrecognised_witness :
  history (face_slot 0) (process_face (rt := float_runtime) sample_label_map 0 0 130.0%float after_two_alice).2
  = trim 3 (history (face_slot 0) after_two_alice ++ [(unknown_key, 130.0%float)]) ∧
  history (face_slot 0) (process_face (rt := float_runtime) sample_label_map 0 7 30.0%float after_two_alice).2
  = trim 3 (history (face_slot 0) after_two_alice ++ [(unknown_key, 30.0%float)]).
Proof.
  split.
  - apply (process_face_unrecognised (rt := float_runtime) sample_label_map 0 0 130.0%float after_two_alice).
    left. vm_compute. reflexivity.
  - apply (process_face_unrecognised (rt := float_runtime) sample_label_map 0 7 30.0%float after_two_alice).
    right. vm_compute. reflexivity.
Defined.

Example collect_sample :
  label_map (collect sample_entries) = {[ 0 := "Alice_001"; 1 := "Bob_002"; 2 := "Carol_003" ]} ∧
  faces (collect sample_entries) = [11; 12; 31] ∧
  labels (collect sample_entries) = [0; 0; 2].
Proof. vm_compute. done. Qed.
End MoreRuns.
